(** * A shallow embedding of [pdf_structure_extractor.py]

    The Python module [pdf_structure_extractor.py] infers a title and an
    outline (H1/H2/H3 headings with page numbers) from the spans that PyMuPDF
    reports for each page of a PDF.  This development embeds the class
    [MultilingualPDFExtractor] and the batch driver [process_all_pdfs].

    Modelling choices, all following the source:
    - a Python [str] is a list of Unicode code points ([list Z]); the string
      literals of the source are written as UTF-8 Rocq strings and decoded
      with [u8];
    - the character database used through [unicodedata] and the [str]
      methods ([isspace], [isdigit], [isalnum], [lower], ...) is a type
      class [UnicodeDB]; theorems hold for every instance, and the concrete
      instance [PyDB.py_db] gives CPython's answers on the code points it lists;
    - the numbers that PyMuPDF supplies (font sizes, coordinates, page
      sizes) are finite, modelled as rationals [Q]; the heading and title
      scores that the code accumulates from float literals are primitive
      binary64 floats, so that [score > 0.4] is decided as in CPython;
    - Python exceptions are values of [PyExc]; [except Exception] catches
      exactly those whose class derives from [Exception]. *)

From Stdlib Require Import ZArith QArith Qminmax List Bool String Ascii Floats Sorting Permutation Lia.
Import ListNotations.
Open Scope Z_scope.

(** ** Decoding the UTF-8 string literals of the source *)

Fixpoint utf8_decode (bs : list ascii) : list Z :=
  match bs with
  | [] => []
  | b0 :: r0 =>
    let c0 := Z.of_nat (nat_of_ascii b0) in
    if c0 <? 128 then c0 :: utf8_decode r0
    else if c0 <? 224 then
      match r0 with
      | b1 :: r1 =>
        ((c0 - 192) * 64 + (Z.of_nat (nat_of_ascii b1) - 128)) :: utf8_decode r1
      | [] => []
      end
    else if c0 <? 240 then
      match r0 with
      | b1 :: b2 :: r2 =>
        ((c0 - 224) * 4096 + (Z.of_nat (nat_of_ascii b1) - 128) * 64
         + (Z.of_nat (nat_of_ascii b2) - 128)) :: utf8_decode r2
      | _ => []
      end
    else
      match r0 with
      | b1 :: b2 :: b3 :: r3 =>
        ((c0 - 240) * 262144 + (Z.of_nat (nat_of_ascii b1) - 128) * 4096
         + (Z.of_nat (nat_of_ascii b2) - 128) * 64
         + (Z.of_nat (nat_of_ascii b3) - 128)) :: utf8_decode r3
      | _ => []
      end
  end.

(** A Python string literal of the source. *)
Definition u8 (s : string) : list Z := utf8_decode (list_ascii_of_string s).

(** A single-character literal ['c'] of the source. *)
Definition uc (s : string) : Z := hd 0 (u8 s).

(** ** The Unicode character database ([unicodedata] and the [str] methods) *)

Class UnicodeDB := {
  (** [unicodedata.name(c).split()[0]]; [None] where [name] raises [ValueError] *)
  ud_name_word : Z -> option string;
  ud_isspace : Z -> bool;      (** [str.isspace], also [\s] of [re] *)
  ud_isdigit : Z -> bool;      (** [str.isdigit] *)
  ud_isdecimal : Z -> bool;    (** [\d] of [re] (category Nd) *)
  ud_isalnum : Z -> bool;      (** [str.isalnum] *)
  ud_islower : Z -> bool;      (** cased lower-case character *)
  ud_isupper : Z -> bool;      (** cased upper-case character *)
  ud_istitle : Z -> bool;      (** title-case character *)
  ud_lower : Z -> list Z;      (** full lower-case mapping used by [str.lower] *)
  ud_lower1 : Z -> Z;          (** simple case mappings used by [re.IGNORECASE] *)
  ud_upper1 : Z -> Z;
  ud_nfc : list Z -> list Z    (** [unicodedata.normalize('NFC', _)] *)
}.

Section PyStr.
Context {U : UnicodeDB}.

Definition zin (c : Z) (l : list Z) : bool := existsb (Z.eqb c) l.

Fixpoint list_Z_eqb (a b : list Z) : bool :=
  match a, b with
  | [], [] => true
  | x :: a', y :: b' => (x =? y) && list_Z_eqb a' b'
  | _, _ => false
  end.

Fixpoint startswith (s p : list Z) : bool :=
  match p, s with
  | [], _ => true
  | x :: p', y :: s' => (x =? y) && startswith s' p'
  | _ :: _, [] => false
  end.

(** [needle in hay] for strings. *)
Fixpoint contains (hay needle : list Z) : bool :=
  startswith hay needle ||
  match hay with [] => false | _ :: hay' => contains hay' needle end.

Definition endswith (s p : list Z) : bool := startswith (rev s) (rev p).

Fixpoint lstrip (s : list Z) : list Z :=
  match s with
  | c :: s' => if ud_isspace c then lstrip s' else s
  | [] => []
  end.

(** [str.strip()] *)
Definition strip (s : list Z) : list Z := rev (lstrip (rev (lstrip s))).

(** [str.lower()] *)
Definition lower (s : list Z) : list Z := flat_map ud_lower s.

(** [str.split()]: maximal runs of non-whitespace characters. *)
Fixpoint split_aux (s : list Z) (cur : list Z) : list (list Z) :=
  match s with
  | [] => match cur with [] => [] | _ => [rev cur] end
  | c :: s' =>
    if ud_isspace c then
      match cur with [] => split_aux s' [] | _ => rev cur :: split_aux s' [] end
    else split_aux s' (c :: cur)
  end.

Definition split (s : list Z) : list (list Z) := split_aux s [].

(** [sep.join(parts)] *)
Fixpoint join (sep : list Z) (parts : list (list Z)) : list Z :=
  match parts with
  | [] => []
  | [p] => p
  | p :: ps => p ++ sep ++ join sep ps
  end.

(** [str.isupper()]: no lower- or title-case character and some upper-case one. *)
Fixpoint isupper_aux (s : list Z) (cased : bool) : bool :=
  match s with
  | [] => cased
  | c :: s' =>
    if ud_islower c || ud_istitle c then false
    else isupper_aux s' (cased || ud_isupper c)
  end.

Definition isupper (s : list Z) : bool := isupper_aux s false.

(** [re.sub(r'\s+', ' ', s)]; [in_ws] is set inside a run of whitespace. *)
Fixpoint collapse_aux (s : list Z) (in_ws : bool) : list Z :=
  match s with
  | [] => []
  | c :: s' =>
    if ud_isspace c then
      if in_ws then collapse_aux s' true else 32 :: collapse_aux s' true
    else c :: collapse_aux s' false
  end.

Definition collapse_ws (s : list Z) : list Z := collapse_aux s false.

End PyStr.

(** ** [re.match]: a prefix of the text lies in the pattern's language

    Patterns are regular expressions over character predicates; matching is
    by Brzozowski derivatives, so [rmatch r s] holds exactly when some prefix
    of [s] is in the language of [r] (the truth value of [re.match]). *)

Module Regex.

Inductive re : Type :=
  | RNone
  | REps
  | RChr (p : Z -> bool)
  | RSeq (a b : re)
  | RAlt (a b : re)
  | RStar (a : re).

Fixpoint nullable (r : re) : bool :=
  match r with
  | RNone | RChr _ => false
  | REps | RStar _ => true
  | RSeq a b => nullable a && nullable b
  | RAlt a b => nullable a || nullable b
  end.

Definition seq (a b : re) : re :=
  match a, b with
  | RNone, _ | _, RNone => RNone
  | REps, _ => b
  | _, REps => a
  | _, _ => RSeq a b
  end.

Definition alt (a b : re) : re :=
  match a, b with
  | RNone, _ => b
  | _, RNone => a
  | _, _ => RAlt a b
  end.

Fixpoint deriv (c : Z) (r : re) : re :=
  match r with
  | RNone | REps => RNone
  | RChr p => if p c then REps else RNone
  | RSeq a b => alt (seq (deriv c a) b) (if nullable a then deriv c b else RNone)
  | RAlt a b => alt (deriv c a) (deriv c b)
  | RStar a => seq (deriv c a) (RStar a)
  end.

Fixpoint rmatch (r : re) (s : list Z) : bool :=
  nullable r ||
  match s with
  | [] => false
  | c :: s' => rmatch (deriv c r) s'
  end.

(** Pattern building blocks. *)
Definition chr (c : Z) : re := RChr (Z.eqb c).
Definition plus (a : re) : re := RSeq a (RStar a).
Definition opt (a : re) : re := RAlt REps a.
Fixpoint lit (l : list Z) : re :=
  match l with [] => REps | c :: l' => RSeq (chr c) (lit l') end.
Fixpoint alts (rs : list re) : re :=
  match rs with [] => RNone | [r] => r | r :: rs' => RAlt r (alts rs') end.
Fixpoint seqs (rs : list re) : re :=
  match rs with [] => REps | [r] => r | r :: rs' => RSeq r (seqs rs') end.

End Regex.

(** ** Generic Python helpers *)

Section Helpers.
Context {A : Type}.

(** [sorted(xs, key=...)] / [list.sort(key=...)]: a stable sort; [lt x y]
    is the strict order on keys.  Each element is inserted after every
    element whose key is not greater, so equal keys keep their input order. *)
Fixpoint ins (lt : A -> A -> bool) (x : A) (l : list A) : list A :=
  match l with
  | [] => [x]
  | y :: ys => if lt x y then x :: y :: ys else y :: ins lt x ys
  end.

Definition sort_by (lt : A -> A -> bool) (l : list A) : list A :=
  fold_left (fun acc x => ins lt x acc) l [].

(** [max(xs, key=...)] on a non-empty list: the first maximal element. *)
Definition py_max (gt : A -> A -> bool) (x : A) (rest : list A) : A :=
  fold_left (fun best y => if gt y best then y else best) rest x.

End Helpers.

(** [ascii] literal as a code point list, for Rocq strings of ASCII text. *)
Definition str_contains (hay needle : string) : bool :=
  contains (u8 hay) (u8 needle).

(** ** Scripts: [_get_script_type] *)

Inductive Script := SUnknown | SLatin | SCyrillic | SArabic | SCjk | SOther.

Definition script_eqb (a b : Script) : bool :=
  match a, b with
  | SUnknown, SUnknown | SLatin, SLatin | SCyrillic, SCyrillic
  | SArabic, SArabic | SCjk, SCjk | SOther, SOther => true
  | _, _ => false
  end.

Section Scripts.
Context {U : UnicodeDB}.

(** Characters skipped by the vote: [char.isspace() or char.isdigit() or
    char in '.,;:!?-()[]{}']. *)
Definition script_ignored (c : Z) : bool :=
  ud_isspace c || ud_isdigit c || zin c (u8 ".,;:!?-()[]{}").

(** The branch taken on [unicodedata.name(char).split()[0]]. *)
Definition char_script (c : Z) : Script :=
  match ud_name_word c with
  | None => SOther
  | Some w =>
    if existsb (str_contains w) ["LATIN"; "LETTER"]%string then SLatin
    else if str_contains w "CYRILLIC" then SCyrillic
    else if existsb (str_contains w) ["ARABIC"; "PERSIAN"]%string then SArabic
    else if existsb (str_contains w) ["CJK"; "HIRAGANA"; "KATAKANA"; "HANGUL"]%string
    then SCjk
    else SOther
  end.

(** [script_counts[k] += 1] on a [defaultdict]: keys keep first-insertion order. *)
Fixpoint bump (k : Script) (cs : list (Script * nat)) : list (Script * nat) :=
  match cs with
  | [] => [(k, 1%nat)]
  | (k', n) :: cs' =>
    if script_eqb k k' then (k', S n) :: cs' else (k', n) :: bump k cs'
  end.

Definition script_counts (text : list Z) : list (Script * nat) :=
  fold_left (fun acc c => if script_ignored c then acc else bump (char_script c) acc)
    text [].

Definition get_script_type (text : list Z) : Script :=
  match text with
  | [] => SUnknown
  | _ =>
    match script_counts text with
    | [] => SLatin
    | kv :: rest => fst (py_max (fun x y => Nat.ltb (snd y) (snd x)) kv rest)
    end
  end.

(** A character the vote counts for class [k]. *)
Definition counted_as (k : Script) (c : Z) : bool :=
  negb (script_ignored c) && script_eqb (char_script c) k.

(** The number of characters of [text] the vote counts for class [k]. *)
Definition script_count (k : Script) (text : list Z) : nat :=
  List.length (filter (counted_as k) text).

End Scripts.

(** ** The language tables of [_setup_language_patterns] *)

Definition lang_keywords : list (string * list (string * list string)) := [
  ("latin", [
    ("english", ["introduction"; "overview"; "summary"; "background"; "conclusion";
      "methodology"; "results"; "discussion"; "references"; "appendix";
      "acknowledgments"; "abstract"; "preface"; "contents"; "index";
      "objectives"; "requirements"; "specifications"; "timeline";
      "approach"; "evaluation"; "criteria"; "milestones"; "scope"]);
    ("spanish", ["introducción"; "resumen"; "antecedentes"; "conclusión";
      "metodología"; "resultados"; "discusión"; "referencias"; "apéndice";
      "agradecimientos"; "resumen"; "prefacio"; "contenidos"; "índice";
      "objetivos"; "requisitos"; "especificaciones"; "cronograma";
      "enfoque"; "evaluación"; "criterios"; "hitos"; "alcance"]);
    ("french", ["introduction"; "aperçu"; "résumé"; "contexte"; "conclusion";
      "méthodologie"; "résultats"; "discussion"; "références"; "annexe";
      "remerciements"; "résumé"; "préface"; "contenu"; "index";
      "objectifs"; "exigences"; "spécifications"; "calendrier";
      "approche"; "évaluation"; "critères"; "jalons"; "portée"]);
    ("german", ["einführung"; "überblick"; "zusammenfassung"; "hintergrund"; "schluss";
      "methodik"; "ergebnisse"; "diskussion"; "referenzen"; "anhang";
      "danksagungen"; "zusammenfassung"; "vorwort"; "inhalt"; "index";
      "ziele"; "anforderungen"; "spezifikationen"; "zeitplan";
      "ansatz"; "bewertung"; "kriterien"; "meilensteine"; "umfang"])]);
  ("cyrillic", [
    ("russian", ["введение"; "обзор"; "резюме"; "предпосылки"; "заключение";
      "методология"; "результаты"; "обсуждение"; "ссылки"; "приложение";
      "благодарности"; "аннотация"; "предисловие"; "содержание"; "индекс";
      "цели"; "требования"; "спецификации"; "график";
      "подход"; "оценка"; "критерии"; "вехи"; "область"])]);
  ("arabic", [
    ("arabic", ["مقدمة"; "نظرة عامة"; "ملخص"; "خلفية"; "خاتمة";
      "منهجية"; "نتائج"; "مناقشة"; "مراجع"; "ملحق";
      "شكر وتقدير"; "مستخلص"; "تمهيد"; "محتويات"; "فهرس";
      "أهداف"; "متطلبات"; "مواصفات"; "جدول زمني";
      "نهج"; "تقييم"; "معايير"; "معالم"; "نطاق"])]);
  ("cjk", [
    ("chinese", ["引言"; "概述"; "摘要"; "背景"; "结论";
      "方法论"; "结果"; "讨论"; "参考文献"; "附录";
      "致谢"; "摘要"; "前言"; "目录"; "索引";
      "目标"; "要求"; "规格"; "时间表";
      "方法"; "评估"; "标准"; "里程碑"; "范围"]);
    ("japanese", ["はじめに"; "概要"; "要約"; "背景"; "結論";
      "方法論"; "結果"; "議論"; "参考文献"; "付録";
      "謝辞"; "要旨"; "序文"; "目次"; "索引";
      "目標"; "要件"; "仕様"; "スケジュール";
      "アプローチ"; "評価"; "基準"; "マイルストーン"; "範囲"])])]%string.

Fixpoint assoc_str {A : Type} (k : string) (l : list (string * A)) : option A :=
  match l with
  | [] => None
  | (k', v) :: l' => if String.eqb k k' then Some v else assoc_str k l'
  end.

(** [for script_family, languages in self.lang_keywords.items():
       if language in languages: ...] -- the first family listing the language. *)
Fixpoint find_language (language : string)
    (fams : list (string * list (string * list string))) : option (list string) :=
  match fams with
  | [] => None
  | (_, langs) :: fams' =>
    match assoc_str language langs with
    | Some ws => Some ws
    | None => find_language language fams'
    end
  end.

Definition english_keywords : list string :=
  match find_language "english" lang_keywords with Some ws => ws | None => [] end.

(** ** Language detection: [_guess_language] and the [_detect_*_lang] helpers *)

Section Language.
Context {U : UnicodeDB}.

Definition kw_in (text : list Z) (w : string) : bool := contains text (u8 w).

Definition detect_latin_lang (text : list Z) : string :=
  let langs := match assoc_str "latin" lang_keywords with Some l => l | None => [] end in
  let scores := map (fun lw => (fst lw, List.length (filter (kw_in text) (snd lw)))) langs in
  match scores with
  | [] => "english"
  | s0 :: rest =>
    let best := py_max (fun x y => Nat.ltb (snd y) (snd x)) s0 rest in
    if Nat.ltb 0 (snd best) then fst best else "english"
  end%string.

Definition any_char_in (chars text : list Z) : bool :=
  existsb (fun c => zin c text) chars.

Definition detect_cyrillic_lang (text : list Z) : string :=
  if any_char_in (u8 "іїє") text then "ukrainian" else "russian".

Definition detect_arabic_lang (text : list Z) : string :=
  if any_char_in (u8 "پچژگ") text then "persian" else "arabic".

Definition detect_cjk_lang (text : list Z) : string :=
  if any_char_in (u8 "ひらがなカタカナ") text then "japanese"
  else if any_char_in (u8 "한글") text then "korean"
  else "chinese".

End Language.

(** ** Exceptions and the error monad *)

(** A raised Python exception: its class name and whether the class derives
    from [Exception] (so that [except Exception] catches it); [KeyboardInterrupt]
    and [SystemExit] derive from [BaseException] only. *)
Record PyExc := { exc_name : string; exc_is_Exception : bool }.

Inductive Exc (A : Type) : Type :=
  | Ok (a : A)
  | Raise (e : PyExc).
Arguments Ok {A} a.
Arguments Raise {A} e.

Definition bind {A B : Type} (m : Exc A) (k : A -> Exc B) : Exc B :=
  match m with Ok a => k a | Raise e => Raise e end.

Notation "x <- m ;; k" := (bind m (fun x => k)) (at level 61, m at next level, right associativity).
Notation "m ;;; k" := (bind m (fun _ => k)) (at level 61, right associativity).

(** [try: body except Exception: handler] *)
Definition try_except {A : Type} (m : Exc A) (handler : PyExc -> Exc A) : Exc A :=
  match m with
  | Ok a => Ok a
  | Raise e => if exc_is_Exception e then handler e else Raise e
  end.

(** ** What PyMuPDF supplies *)

(** A span of [page.get_text("dict")]: [bbox], [size], [font], [flags], [text]. *)
Record Span := {
  span_x0 : Q; span_y0 : Q; span_x1 : Q; span_y1 : Q;
  span_size : Q;
  span_font : list Z;
  span_flags : Z;
  span_text : list Z
}.

(** A block of the page dictionary: [None] when it has no ["lines"] key
    (an image block), else its lines, each the list [line.get("spans", [])]. *)
Definition RawBlock := option (list (list Span)).

(** [doc[page_idx]] with [page.get_text("dict")] and [page.rect]. *)
Record PageData := { page_rect_width : Q; page_rect_height : Q; page_raw_blocks : list RawBlock }.

(** An opened [fitz.Document]: each page access may raise, and so may
    [doc.close()]. *)
Record Document := { doc_pages : list (Exc PageData); doc_close : Exc unit }.

(** ** Text blocks: the dictionaries built by [_make_text_block] *)

Record Block := {
  text : list Z;
  page : nat;
  font_size : Q;
  font_name : list Z;
  flags : Z;
  x0 : Q; y0 : Q; x1 : Q; y1 : Q;     (** also the ['bbox'] list *)
  page_width : Q;
  page_height : Q;
  char_count : nat;
  word_count : nat;
  line_height : Q;
  script_type : Script
}.

(** Dictionary equality [==] on blocks (used by [block in some_list] and
    [other != block]); floats compare by value. *)
Definition block_eqb (a b : Block) : bool :=
  list_Z_eqb (text a) (text b) && Nat.eqb (page a) (page b)
  && Qeq_bool (font_size a) (font_size b) && list_Z_eqb (font_name a) (font_name b)
  && Z.eqb (flags a) (flags b)
  && Qeq_bool (x0 a) (x0 b) && Qeq_bool (y0 a) (y0 b)
  && Qeq_bool (x1 a) (x1 b) && Qeq_bool (y1 a) (y1 b)
  && Qeq_bool (page_width a) (page_width b) && Qeq_bool (page_height a) (page_height b)
  && Nat.eqb (char_count a) (char_count b) && Nat.eqb (word_count a) (word_count b)
  && Qeq_bool (line_height a) (line_height b) && script_eqb (script_type a) (script_type b).

(** [block in blocks] *)
Definition block_in (b : Block) (bs : list Block) : bool := existsb (block_eqb b) bs.

Definition page_limit : nat := 50.
Definition memory_threshold : nat := 1000.

Definition Qlt_bool (a b : Q) : bool := negb (Qle_bool b a).

Definition Qabs (q : Q) : Q := if Qle_bool 0 q then q else - q.

Section BlockBuilder.
Context {U : UnicodeDB}.

(** [_group_nearby_spans]: sort by [(bbox[1], bbox[0])], then cut wherever
    two neighbours are 5 or more apart vertically or 20 or more horizontally. *)
Definition span_key_lt (a b : Span) : bool :=
  Qlt_bool (span_y0 a) (span_y0 b)
  || (Qeq_bool (span_y0 a) (span_y0 b) && Qlt_bool (span_x0 a) (span_x0 b)).

Fixpoint group_from (prev : Span) (cur : list Span) (rest : list Span) : list (list Span) :=
  match rest with
  | [] => [rev cur]
  | curr :: rest' =>
    let y_gap := Qabs (span_y0 curr - span_y0 prev) in
    let x_gap := Qabs (span_x0 curr - span_x1 prev) in
    if Qlt_bool y_gap 5 && Qlt_bool x_gap 20 then group_from curr (curr :: cur) rest'
    else rev cur :: group_from curr [curr] rest'
  end.

Definition group_nearby_spans (spans : list Span) : list (list Span) :=
  match sort_by span_key_lt spans with
  | [] => []
  | s0 :: rest => group_from s0 [s0] rest
  end.

(** [min]/[max] over a non-empty list of rationals (the first extremal one). *)
Definition q_min (x : Q) (rest : list Q) : Q := py_max (fun a b => Qlt_bool a b) x rest.
Definition q_max (x : Q) (rest : list Q) : Q := py_max (fun a b => Qlt_bool b a) x rest.

(** [_make_text_block] *)
Definition make_text_block (spans : list Span) (page_num : nat) (pw ph : Q) : option Block :=
  match spans with
  | [] => None
  | sp0 :: sps =>
    let kept := filter (fun sp => negb (Nat.eqb (List.length (strip (span_text sp))) 0)) spans in
    let text_parts := map (fun sp => ud_nfc (strip (span_text sp))) kept in
    let sizes := map span_size kept in
    let combined_flags := fold_left (fun f sp => Z.lor f (span_flags sp)) kept 0 in
    match text_parts, sizes with
    | [], _ | _, [] => None
    | _, sz0 :: szs =>
      let full_text := join [32] text_parts in
      let main_size := q_max sz0 szs in
      let bx1 := q_min (span_x0 sp0) (map span_x0 sps) in
      let by1 := q_min (span_y0 sp0) (map span_y0 sps) in
      let bx2 := q_max (span_x1 sp0) (map span_x1 sps) in
      let by2 := q_max (span_y1 sp0) (map span_y1 sps) in
      Some {| text := full_text; page := page_num; font_size := main_size;
              font_name := span_font sp0; flags := combined_flags;
              x0 := bx1; y0 := by1; x1 := bx2; y1 := by2;
              page_width := pw; page_height := ph;
              char_count := List.length full_text;
              word_count := List.length (split full_text);
              line_height := by2 - by1;
              script_type := get_script_type full_text |}
    end
  end.

(** [_is_useful_text] *)
Definition is_useful_text (t : list Z) : bool :=
  if Nat.eqb (List.length t) 0 || Nat.ltb (List.length (strip t)) 2 then false
  else if Nat.ltb 300 (List.length t) then false
  else let useful_chars := List.length (filter (fun c => ud_isalnum c || (127 <? c)) t) in
       negb (Nat.ltb useful_chars 2).

(** [_process_block_lines] *)
Definition process_block_lines (lines : list (list Span)) (page_num : nat) (pw ph : Q)
    : list Block :=
  flat_map (fun spans =>
    flat_map (fun group =>
      match make_text_block group page_num pw ph with
      | Some b => if is_useful_text (text b) then [b] else []
      | None => []
      end) (group_nearby_spans spans)) lines.

(** The loop over the blocks of one page in [_get_text_blocks]: [inl acc]
    continues with the accumulated blocks, [inr bs] is the early
    [return blocks[:self.memory_threshold]]. *)
Fixpoint page_loop (raws : list RawBlock) (page_idx : nat) (pw ph : Q) (acc : list Block)
    : list Block + list Block :=
  match raws with
  | [] => inl acc
  | None :: raws' => page_loop raws' page_idx pw ph acc
  | Some lines :: raws' =>
    let acc' := acc ++ process_block_lines lines page_idx pw ph in
    if Nat.ltb memory_threshold (List.length acc') then inr (firstn memory_threshold acc')
    else page_loop raws' page_idx pw ph acc'
  end.

(** [doc[page_idx]]; an index past the end raises [IndexError]. *)
Definition get_page (doc : Document) (i : nat) : Exc PageData :=
  match nth_error (doc_pages doc) i with
  | Some r => r
  | None => Raise {| exc_name := "IndexError"; exc_is_Exception := true |}
  end.

(** [_get_text_blocks]: pages [0 .. page_count-1]; a page that raises an
    [Exception] is logged and skipped. *)
Fixpoint pages_loop (doc : Document) (idxs : list nat) (acc : list Block) : Exc (list Block) :=
  match idxs with
  | [] => Ok acc
  | i :: idxs' =>
    match get_page doc i with
    | Raise e => if exc_is_Exception e then pages_loop doc idxs' acc else Raise e
    | Ok pd =>
      match page_loop (page_raw_blocks pd) i (page_rect_width pd) (page_rect_height pd) acc with
      | inr bs => Ok bs
      | inl acc' => pages_loop doc idxs' acc'
      end
    end
  end.

Definition get_text_blocks (doc : Document) (page_count : nat) : Exc (list Block) :=
  pages_loop doc (seq 0 page_count) [].

(** [_guess_language] *)
Fixpoint build_sample (bs : list Block) (sample : list Z) : list Z :=
  match bs with
  | [] => sample
  | b :: bs' =>
    if Nat.leb 1000 (List.length sample) then sample
    else build_sample bs' (sample ++ 32 :: text b)
  end.

Definition guess_language (blocks : list Block) : string :=
  let sample := build_sample (firstn 20 blocks) [] in
  match sample with
  | [] => "english"
  | _ =>
    match get_script_type sample with
    | SLatin => detect_latin_lang (lower sample)
    | SCyrillic => detect_cyrillic_lang sample
    | SArabic => detect_arabic_lang sample
    | SCjk => detect_cjk_lang sample
    | _ => "english"
    end
  end%string.

End BlockBuilder.

(** ** Patterns of [self.number_patterns] and the other [re.match] calls *)

Section Patterns.
Context {U : UnicodeDB}.
Import Regex.

(** [\d], [\s], [\w] of [re] on [str] patterns. *)
Definition r_d : re := RChr ud_isdecimal.
Definition r_s : re := RChr ud_isspace.
Definition r_w : re := RChr (fun c => ud_isalnum c || (c =? 95)).

(** A character class [[...]] given by its members. *)
Definition r_class (members : list Z) : re := RChr (fun c => zin c members).
Definition in_range (lo hi c : Z) : bool := (lo <=? c) && (c <=? hi).

(** Under [re.IGNORECASE] a pattern character [l] matches [c] when their
    simple lower-case or upper-case forms agree. *)
Definition ci_eq (l c : Z) : bool := (ud_lower1 c =? ud_lower1 l) || (ud_upper1 c =? ud_upper1 l).
Definition ci_chr (l : Z) : re := RChr (ci_eq l).
Definition ci_class (members : list Z) : re := RChr (fun c => existsb (fun l => ci_eq l c) members).
Definition ci_range (lo hi : Z) : re :=
  RChr (fun c => in_range lo hi c || in_range lo hi (ud_lower1 c) || in_range lo hi (ud_upper1 c)).
Fixpoint ci_lit (l : list Z) : re :=
  match l with [] => REps | c :: l' => RSeq (ci_chr c) (ci_lit l') end.
Definition ci_words (ws : list string) : re := alts (map (fun w => ci_lit (u8 w)) ws).

Definition ascii_letters : list Z := u8 "abcdefghijklmnopqrstuvwxyzABCDEFGHIJKLMNOPQRSTUVWXYZ".

(** [r'^\d+\.?\s+\w+'] *)
Definition pat_num : re := seqs [plus r_d; opt (ci_chr (uc ".")); plus r_s; plus r_w].
(** [r'^\d+\.\d+\.?\s+\w+'] *)
Definition pat_subnum : re :=
  seqs [plus r_d; ci_chr (uc "."); plus r_d; opt (ci_chr (uc ".")); plus r_s; plus r_w].

(** [self.number_patterns], matched with [re.IGNORECASE | re.UNICODE]. *)
Definition number_patterns_latin : list re := [
  pat_num;
  pat_subnum;
  seqs [plus (ci_class (u8 "IVX")); opt (ci_chr (uc ".")); plus r_s; plus r_w];
  seqs [ci_class ascii_letters; opt (ci_chr (uc ")")); plus r_s; plus r_w];
  seqs [ci_words ["chapter"; "section"; "part"; "appendix"]%string; plus r_s; plus r_d]].

Definition number_patterns_cyrillic : list re := [
  pat_num;
  pat_subnum;
  seqs [ci_words ["глава"; "раздел"; "часть"; "приложение"]%string; plus r_s; plus r_d]].

Definition number_patterns_arabic : list re := [
  seqs [plus (ci_range 1632 1641); opt (ci_chr (uc ".")); plus r_s; plus r_w];
  pat_num;
  seqs [ci_words ["فصل"; "قسم"; "جزء"; "ملحق"]%string; plus r_s;
        plus (RChr (fun c => ud_isdecimal c || in_range 1632 1641 c
                             || in_range 1632 1641 (ud_lower1 c)
                             || in_range 1632 1641 (ud_upper1 c)))]].

Definition cjk_numerals : list Z := u8 "一二三四五六七八九十".

Definition number_patterns_cjk : list re := [
  seqs [plus (ci_class cjk_numerals); opt (ci_class (u8 "、.")); RStar r_s; plus r_w];
  seqs [plus r_d; opt (ci_class (u8 "、.")); RStar r_s; plus r_w];
  seqs [ci_chr (uc "第");
        plus (RChr (fun c => existsb (fun l => ci_eq l c) cjk_numerals || ud_isdecimal c));
        ci_class (u8 "章节部分"); RStar r_s; plus r_w];
  seqs [ci_class (u8 "①②③④⑤⑥⑦⑧⑨⑩"); RStar r_s; plus r_w]].

(** [self.number_patterns.get(script, self.number_patterns['latin'])] *)
Definition number_patterns (script : Script) : list re :=
  match script with
  | SCyrillic => number_patterns_cyrillic
  | SArabic => number_patterns_arabic
  | SCjk => number_patterns_cjk
  | _ => number_patterns_latin
  end.

(** [_has_numbering] *)
Definition has_numbering (t : list Z) (script : Script) : bool :=
  existsb (fun p => rmatch p t) (number_patterns script).

(** The date pattern of [_obviously_not_title] (no flags, on lower-cased text). *)
Definition date_pattern : re :=
  seqs [alts (map (fun w => lit (u8 w))
          ["january"; "february"; "march"; "april"; "may"; "june"; "july"; "august";
           "september"; "october"; "november"; "december"; "enero"; "febrero";
           "marzo"; "abril"; "mayo"; "junio"; "julio"; "agosto"; "septiembre";
           "octubre"; "noviembre"; "diciembre"]%string);
        plus r_s; r_d; opt r_d; opt (chr (uc ",")); plus r_s; r_d; r_d; r_d; r_d].

(** [[A-Za-zЀ-ӿ؀-ۿ]] of [_is_major_section] and [_is_subsection]. *)
Definition letter_class : re :=
  RChr (fun c => zin c ascii_letters || in_range 1024 1279 c || in_range 1536 1791 c).

(** [r'^[一二三四五六七八九十\d]+[、.]?\s*'] *)
Definition major_cjk_pattern : re :=
  seqs [plus (RChr (fun c => zin c cjk_numerals || ud_isdecimal c));
        opt (r_class (u8 "、.")); RStar r_s].
(** [r'^\d+\.?\s+[A-Za-zЀ-ӿ؀-ۿ]'] *)
Definition major_western_pattern : re :=
  seqs [plus r_d; opt (chr (uc ".")); plus r_s; letter_class].
(** [r'^\d+\.\d+\.?\s+[A-Za-zЀ-ӿ؀-ۿ]'] *)
Definition subsection_pattern : re :=
  seqs [plus r_d; chr (uc "."); plus r_d; opt (chr (uc ".")); plus r_s; letter_class].

End Patterns.

(** ** [_analyze_structure] *)

(** The ['fonts'] entry (the entries that no later stage reads,
    ['all_sizes'], ['size_counts'] and ['common_font'], are left out). *)
Record FontInfo := {
  fi_average : Q; fi_median : Q; fi_largest : Q; fi_smallest : Q;
  fi_p75 : Q; fi_p90 : Q; fi_p95 : Q
}.

Record ContentInfo := {
  numbered_items : list Block; keywords : list Block; caps_text : list Block;
  colon_endings : list Block; short_lines : list Block
}.

Record LayoutInfo := {
  centered : list Block; left_side : list Block; right_side : list Block;
  isolated : list Block; top_of_page : list Block
}.

Record Structure := {
  st_fonts : FontInfo; st_content : ContentInfo; st_layout : LayoutInfo;
  st_language : string; st_block_count : nat
}.

(** [sorted_sizes[i]] (the index is always in range where it is used). *)
Definition nth_q (l : list Q) (i : nat) : Q := nth i l 0%Q.
(** [sorted_sizes[-1]] *)
Definition last_q (l : list Q) : Q := last l 0%Q.

(** The statistics of [font_info]; [int(n * 0.75)], [int(n * 0.90)] and
    [int(n * 0.95)] are the floors [3n/4], [9n/10] and [19n/20] (the float
    products round to those integers for every block count reached here). *)
Definition font_stats (sz0 : Q) (szs : list Q) : FontInfo :=
  let font_sizes := sz0 :: szs in
  let sorted_sizes := sort_by Qlt_bool font_sizes in
  let n := List.length sorted_sizes in
  {| fi_average := fold_left Qplus font_sizes 0%Q / inject_Z (Z.of_nat n);
     fi_median := nth_q sorted_sizes (Nat.div n 2);
     fi_largest := q_max sz0 szs;
     fi_smallest := q_min sz0 szs;
     fi_p75 := if Nat.ltb 4 n then nth_q sorted_sizes (Nat.div (3 * n) 4) else last_q sorted_sizes;
     fi_p90 := if Nat.ltb 10 n then nth_q sorted_sizes (Nat.div (9 * n) 10) else last_q sorted_sizes;
     fi_p95 := if Nat.ltb 20 n then nth_q sorted_sizes (Nat.div (19 * n) 20) else last_q sorted_sizes |}.

Section Analysis.
Context {U : UnicodeDB}.

(** [_has_keywords] *)
Definition has_keywords (text_lower : list Z) (language : string) : bool :=
  match find_language language lang_keywords with
  | Some kws => existsb (kw_in text_lower) kws
  | None => existsb (kw_in text_lower) english_keywords
  end.

(** [_is_caps_text] *)
Definition is_caps_text (t : list Z) (script : Script) : bool :=
  match script with
  | SArabic | SCjk => false
  | _ =>
    isupper t && Nat.leb 5 (List.length t) && Nat.leb (List.length t) 100
    && Nat.leb (List.length (split t)) 15
  end.

(** [_ends_with_colon] *)
Definition ends_with_colon (t : list Z) (script : Script) : bool :=
  let punct_list :=
    match script with
    | SArabic => [u8 ":"; u8 "؛"]
    | SCjk => [u8 ":"; u8 "："; u8 "。"]
    | _ => [u8 ":"]
    end in
  existsb (endswith t) punct_list && Nat.leb (List.length (split t)) 12.

(** [_is_short_line] *)
Definition is_short_line (t : list Z) (script : Script) : bool :=
  match script with
  | SCjk => Nat.leb 5 (List.length t) && Nat.leb (List.length t) 50
  | _ => Nat.leb 3 (List.length (split t)) && Nat.leb (List.length (split t)) 15
         && Nat.leb (List.length t) 150
  end.

(** [_find_content_patterns] *)
Definition find_content_patterns (blocks : list Block) (language : string) : ContentInfo :=
  let st b := strip (text b) in
  {| numbered_items := filter (fun b => has_numbering (st b) (script_type b)) blocks;
     keywords := filter (fun b => has_keywords (lower (st b)) language) blocks;
     caps_text := filter (fun b => is_caps_text (st b) (script_type b)) blocks;
     colon_endings := filter (fun b => ends_with_colon (st b) (script_type b)) blocks;
     short_lines := filter (fun b => is_short_line (st b) (script_type b)) blocks |}.

(** The pages in the order [by_page] first sees them. *)
Fixpoint pages_in_order (blocks : list Block) (seen : list nat) : list nat :=
  match blocks with
  | [] => rev seen
  | b :: bs =>
    if existsb (Nat.eqb (page b)) seen then pages_in_order bs seen
    else pages_in_order bs (page b :: seen)
  end.

Definition layout_of_page (page_blocks : list Block) : LayoutInfo :=
  let pw := match page_blocks with b :: _ => page_width b | [] => 0%Q end in
  let is_centered b := Qlt_bool (Qabs ((x0 b + x1 b) / 2 - pw / 2)) (pw * (15 # 100)) in
  let is_left b := Qlt_bool (x0 b) (pw * (2 # 10)) in
  let is_right b := Qlt_bool (pw * (8 # 10)) (x1 b) in
  let nearby b := List.length (filter (fun o => negb (block_eqb o b)
                                           && Qlt_bool (Qabs (y0 o - y0 b)) 30) page_blocks) in
  {| centered := filter is_centered page_blocks;
     left_side := filter (fun b => negb (is_centered b) && is_left b) page_blocks;
     right_side := filter (fun b => negb (is_centered b) && negb (is_left b) && is_right b)
                     page_blocks;
     isolated := filter (fun b => Nat.leb (nearby b) 1) page_blocks;
     top_of_page := filter (fun b => Qlt_bool (y0 b) 150) page_blocks |}.

(** [_analyze_layout] *)
Definition analyze_layout (blocks : list Block) : LayoutInfo :=
  let per_page := map (fun p => layout_of_page (filter (fun b => Nat.eqb (page b) p) blocks))
                      (pages_in_order blocks []) in
  {| centered := flat_map centered per_page; left_side := flat_map left_side per_page;
     right_side := flat_map right_side per_page; isolated := flat_map isolated per_page;
     top_of_page := flat_map top_of_page per_page |}.

(** [_analyze_structure]; [None] is the empty dictionary returned for no blocks. *)
Definition analyze_structure (blocks : list Block) (language : string) : option Structure :=
  match blocks with
  | [] => None
  | b0 :: bs =>
    Some {| st_fonts := font_stats (font_size b0) (map font_size bs);
            st_content := find_content_patterns blocks language;
            st_layout := analyze_layout blocks;
            st_language := language;
            st_block_count := List.length blocks |}
  end.

End Analysis.

(** ** Title selection and heading detection *)

Inductive Level := H1 | H2 | H3.

(** An entry of the emitted outline: [{"level": ..., "text": ..., "page": ...}]. *)
Record OutlineEntry := { out_level : Level; out_text : list Z; out_page : nat }.

Section Headings.
Context {U : UnicodeDB}.

(** [_is_bold]: [block['flags'] & 2**4] *)
Definition is_bold (b : Block) : bool := negb (Z.eqb (Z.land (flags b) 16) 0).

(** [_obviously_not_title] *)
Definition obviously_not_title (t : list Z) (language : string) : bool :=
  let text_lower := lower t in
  if existsb (kw_in text_lower) ["www."; "http"; "@"; ".com"; ".org"]%string then true
  else if Nat.ltb (List.length (strip t)) 3 then true
  else if existsb (String.eqb language) ["english"; "spanish"; "french"; "german"]%string
  then Regex.rmatch date_pattern text_lower
  else false.

(** [_definitely_not_heading] *)
Definition definitely_not_heading (t : list Z) (language : string) : bool :=
  let text_lower := lower t in
  if existsb (kw_in text_lower) ["office use only"; "signature"; "date"; "remarks";
                                 "faxed to:"; "e-mailed"; "mailed"; "couriered"]%string
  then true
  else if (match get_script_type t with
           | SCjk => Nat.ltb 100 (List.length t)
           | _ => Nat.ltb 30 (List.length (split t))
           end) then true
  else
    let useful_chars := List.length (filter (fun c => ud_isalnum c || (127 <? c)) t) in
    (* [useful_chars < len(text) * 0.4] *)
    Qlt_bool (inject_Z (Z.of_nat useful_chars)) (inject_Z (Z.of_nat (List.length t)) * (4 # 10)).

(** [_score_title_candidate] *)
Definition score_title_candidate (b : Block) (structure : option Structure)
    (language : string) : float :=
  let t := strip (text b) in
  let s0 := 0.0%float in
  let s1 := match structure with
            | Some st =>
              if Qle_bool (fi_p95 (st_fonts st)) (font_size b) then (s0 + 0.3)%float
              else if Qle_bool (fi_p90 (st_fonts st)) (font_size b) then (s0 + 0.2)%float
              else s0
            | None => s0
            end in
  let s2 := if is_bold b then (s1 + 0.25)%float else s1 in
  let lay := option_map st_layout structure in
  let in_lay f := match lay with Some l => block_in b (f l) | None => false end in
  let s3 := if in_lay centered then (s2 + 0.2)%float else s2 in
  let s4 := if in_lay top_of_page then (s3 + 0.15)%float else s3 in
  let s5 := match script_type b with
            | SCjk => if Nat.leb 5 (List.length t) && Nat.leb (List.length t) 50
                      then (s4 + 0.1)%float else s4
            | _ => let words := List.length (split t) in
                   if Nat.leb 3 words && Nat.leb words 25 then (s4 + 0.1)%float
                   else if Nat.ltb 30 words then (s4 - 0.3)%float
                   else s4
            end in
  let s6 := if Nat.leb 10 (List.length t) && Nat.leb (List.length t) 200
            then (s5 + 0.05)%float else s5 in
  if obviously_not_title t language then 0.0%float else s6.

(** [_clean_title] *)
Definition clean_title (title : list Z) (language : string) : list Z :=
  let t := collapse_ws (ud_nfc (strip title)) in
  match get_script_type t with
  | SCjk => if Nat.ltb 100 (List.length t) then firstn 100 t ++ u8 "..." else t
  | _ =>
    if Nat.ltb 200 (List.length t) then
      let words := split t in
      if Nat.ltb 30 (List.length words) then join [32] (firstn 30 words) ++ u8 "..." else t
    else t
  end.

(** [_find_title] *)
Definition find_title (blocks : list Block) (structure : option Structure)
    (language : string) : list Z :=
  let first_page := filter (fun b => Nat.eqb (page b) 0) blocks in
  let candidates := filter (fun bs => PrimFloat.ltb 0.3 (snd bs))
                      (map (fun b => (b, score_title_candidate b structure language)) first_page) in
  match candidates with
  | [] =>
    match filter (fun b => negb (obviously_not_title (text b) language)) first_page with
    | [] => []
    | v0 :: vs =>
      clean_title (text (py_max (fun x y => Qlt_bool (font_size y) (font_size x)) v0 vs))
                  language
    end
  | c0 :: cs =>
    clean_title (text (fst (py_max (fun x y => PrimFloat.ltb (snd y) (snd x)) c0 cs))) language
  end.

(** [_score_heading_candidate] *)
Definition score_heading_candidate (b : Block) (structure : option Structure)
    (language : string) : float :=
  let t := strip (text b) in
  let s0 := 0.0%float in
  let s1 := match structure with
            | Some st =>
              if Qle_bool (fi_p90 (st_fonts st)) (font_size b) then (s0 + 0.2)%float
              else if Qle_bool (fi_p75 (st_fonts st)) (font_size b) then (s0 + 0.15)%float
              else s0
            | None => s0
            end in
  let s2 := if is_bold b then (s1 + 0.25)%float else s1 in
  let con f := match structure with Some st => block_in b (f (st_content st)) | None => false end in
  let lay f := match structure with Some st => block_in b (f (st_layout st)) | None => false end in
  let s3 := if con numbered_items then (s2 + 0.35)%float else s2 in
  let s4 := if con keywords then (s3 + 0.3)%float else s3 in
  let s5 := if con caps_text then (s4 + 0.2)%float else s4 in
  let s6 := if con colon_endings then (s5 + 0.25)%float else s5 in
  let s7 := if lay centered then (s6 + 0.15)%float else s6 in
  let s8 := if lay isolated then (s7 + 0.2)%float else s7 in
  let s9 := match script_type b with
            | SCjk => if Nat.leb 3 (List.length t) && Nat.leb (List.length t) 30
                      then (s8 + 0.1)%float
                      else if Nat.ltb 50 (List.length t) then (s8 - 0.4)%float else s8
            | _ => let words := List.length (split t) in
                   if Nat.leb 2 words && Nat.leb words 15 then (s8 + 0.1)%float
                   else if Nat.ltb 25 words then (s8 - 0.4)%float
                   else s8
            end in
  if definitely_not_heading t language then 0.0%float else s9.

(** The first family listing [language] in [self.lang_keywords], filtered
    by [markers]; the fallback list when that leaves nothing. *)
Definition keyword_selection (language : string) (markers fallback : list string)
    : list string :=
  let sel := match find_language language lang_keywords with
             | Some ws => filter (fun w => existsb (fun m => kw_in (u8 w) m) markers) ws
             | None => []
             end in
  match sel with [] => fallback | _ => sel end.

Definition major_markers : list string :=
  ["introduction"; "overview"; "summary"; "background"; "conclusion";
   "methodology"; "results"; "discussion"; "references"; "appendix";
   "abstract"; "introducción"; "resumen"; "conclusión";
   "введение"; "заключение"; "مقدمة"; "خاتمة"; "引言"; "结论"]%string.

Definition major_fallback : list string :=
  ["introduction"; "overview"; "background"; "summary";
   "conclusion"; "methodology"; "results"; "discussion";
   "references"; "appendix"; "acknowledgments"; "abstract"]%string.

Definition sub_markers : list string :=
  ["objectives"; "goals"; "requirements"; "specifications"; "timeline";
   "approach"; "evaluation"; "criteria"; "milestones"; "objetivos";
   "цели"; "требования"; "أهداف"; "متطلبات"; "目标"; "要求"]%string.

Definition sub_fallback : list string :=
  ["objectives"; "goals"; "requirements"; "specifications";
   "timeline"; "approach"; "evaluation"; "criteria";
   "milestones"; "deliverables"; "scope"; "limitations"]%string.

(** [_is_major_section] *)
Definition is_major_section (text_lower : list Z) (heading : Block) (language : string) : bool :=
  if existsb (kw_in text_lower) (keyword_selection language major_markers major_fallback)
  then true
  else if (match script_type heading with
           | SCjk => Regex.rmatch major_cjk_pattern (text heading)
           | _ => Regex.rmatch major_western_pattern (text heading)
           end) then true
  else Nat.leb (page heading) 1 && is_bold heading && Qle_bool 14 (font_size heading).

(** [_is_subsection] *)
Definition is_subsection (text_lower : list Z) (heading : Block) (language : string) : bool :=
  if existsb (kw_in text_lower) (keyword_selection language sub_markers sub_fallback)
  then true
  else if ends_with_colon (text heading) (script_type heading) then true
  else Regex.rmatch subsection_pattern (text heading).

(** The level that [_assign_levels] stores in [heading['level']]. *)
Definition assign_level (heading : Block) (language : string) : Level :=
  let text_lower := lower (strip (text heading)) in
  if is_major_section text_lower heading language then H1
  else if is_subsection text_lower heading language then H2
  else H3.

(** [_assign_levels]: each heading paired with its level. *)
Definition assign_levels (headings : list Block) (language : string) : list (Block * Level) :=
  map (fun h => (h, assign_level h language)) headings.

(** [_is_valid_heading] *)
Definition is_valid_heading (b : Block) (language : string) : bool :=
  let t := strip (text b) in
  let len_ok := match script_type b with
                | SCjk => Nat.leb 2 (List.length t) && Nat.leb (List.length t) 80
                | _ => Nat.leb 5 (List.length t) && Nat.leb (List.length t) 250
                       && Nat.leb (List.length (split t)) 25
                end in
  len_ok && negb (definitely_not_heading t language).

(** [set(s.split())]: the distinct words, in first-occurrence order. *)
Fixpoint dedup (ws : list (list Z)) : list (list Z) :=
  match ws with
  | [] => []
  | w :: ws' => if existsb (list_Z_eqb w) ws' then dedup ws' else w :: dedup ws'
  end.

Definition word_set (s : list Z) : list (list Z) := dedup (split (ud_nfc (lower s))).

(** [len(title_words.intersection(block_words)) / max(len(title_words), len(block_words))]. *)
Definition similarity (tw bw : list (list Z)) : Q :=
  inject_Z (Z.of_nat (List.length (filter (fun w => existsb (list_Z_eqb w) bw) tw)))
  / inject_Z (Z.of_nat (Nat.max (List.length tw) (List.length bw))).

(** [_remove_title_matches]; the ratio is compared with [0.4] exactly (word
    counts are far too small for float rounding to cross [0.4]). *)
Definition remove_title_matches {A : Type} (candidates : list (Block * A)) (title : list Z)
    : list (Block * A) :=
  match title with
  | [] => candidates
  | _ =>
    let title_words := word_set title in
    filter (fun bs =>
      let block_words := word_set (text (fst bs)) in
      match title_words, block_words with
      | _ :: _, _ :: _ => Qlt_bool (similarity title_words block_words) (4 # 10)
      | _, _ => true
      end) candidates
  end.

(** [_format_headings] for one heading. *)
Definition format_heading (hl : Block * Level) : OutlineEntry :=
  {| out_level := snd hl; out_text := ud_nfc (strip (text (fst hl))); out_page := page (fst hl) |}.

(** The key [(h['page'], h['y0'])] of the final sort, as a strict order. *)
Definition heading_key_lt (a b : Block * Level) : bool :=
  Nat.ltb (page (fst a)) (page (fst b))
  || (Nat.eqb (page (fst a)) (page (fst b)) && Qlt_bool (y0 (fst a)) (y0 (fst b))).

(** [_build_outline] up to the final sort: the sorted headings with their levels. *)
Definition outline_headings (blocks : list Block) (structure : option Structure)
    (title : list Z) (language : string) : list (Block * Level) :=
  let candidates := filter (fun bs => PrimFloat.ltb 0.4 (snd bs))
                      (map (fun b => (b, score_heading_candidate b structure language)) blocks) in
  let candidates := remove_title_matches candidates title in
  let valid_headings := map fst (filter (fun bs => is_valid_heading (fst bs) language) candidates) in
  sort_by heading_key_lt (assign_levels valid_headings language).

(** [_build_outline] *)
Definition build_outline (blocks : list Block) (structure : option Structure)
    (title : list Z) (language : string) : list OutlineEntry :=
  map format_heading (outline_headings blocks structure title language).

End Headings.

(** ** [extract_structure] and [process_all_pdfs] *)

(** The returned dictionary [{"title": ..., "outline": ...}]. *)
Record Result := { res_title : list Z; res_outline : list OutlineEntry }.

Definition empty_result : Result := {| res_title := []; res_outline := [] |}.

Section Extract.
Context {U : UnicodeDB}.

(** The body of the [try] in [extract_structure], after [fitz.open]. *)
Definition extract_body (doc : Document) : Exc Result :=
  let total_pages := Nat.min (List.length (doc_pages doc)) page_limit in
  all_blocks <- get_text_blocks doc total_pages ;;
  match all_blocks with
  | [] => doc_close doc ;;; Ok empty_result
  | _ :: _ =>
    let doc_lang := guess_language all_blocks in
    let structure_info := analyze_structure all_blocks doc_lang in
    let title := find_title all_blocks structure_info doc_lang in
    let outline := build_outline all_blocks structure_info title doc_lang in
    doc_close doc ;;; Ok {| res_title := title; res_outline := outline |}
  end.

(** [extract_structure(pdf_path)]; [opened] is what [fitz.open(pdf_path)]
    does for the path: the opened document or the exception it raises. *)
Definition extract_structure (opened : Exc Document) : Exc Result :=
  try_except (doc <- opened ;; extract_body doc) (fun _ => Ok empty_result).

(** A file of the input directory: its name, what [fitz.open] does on it,
    and what writing its JSON output does. *)
Record PdfFile := { pdf_name : string; pdf_open : Exc Document; pdf_write : Exc unit }.

(** [save_output]: errors deriving from [Exception] are logged. *)
Definition save_output (write : Exc unit) : Exc unit :=
  try_except write (fun _ => Ok tt).

End Extract.

(** ** Console output, and the whole of [process_all_pdfs] and [main] *)

(** The lines [process_all_pdfs] and [main] print.  [MsgCompleted] names the
    PDF file (the output file name [stem + ".json"] is a function of it);
    [MsgFailed] and [MsgError] carry the exception formatted into them. *)
Inductive Msg :=
  | MsgInputMissing
  | MsgNoPdfs
  | MsgFound (n : nat)
  | MsgProcessing (name : string)
  | MsgCompleted (name : string)
  | MsgFailed (name : string) (e : PyExc)
  | MsgAllDone
  | MsgStopped
  | MsgError (e : PyExc).

(** What [print] does: the outcome of the [k]-th [print] call of the run,
    given its line.  A [print] can raise, e.g. [UnicodeEncodeError] for a
    character the console encoding lacks (["✓"], ["✗"], a file name) or
    [BrokenPipeError] once the reader of standard output has gone. *)
Record Console := { con_print : nat -> Msg -> Exc unit }.

(** Code that prints: it threads the number of [print] calls made so far. *)
Definition IO (A : Type) : Type := nat -> nat * Exc A.

Definition io_ret {A : Type} (a : A) : IO A := fun n => (n, Ok a).

Definition io_raise {A : Type} (e : PyExc) : IO A := fun n => (n, Raise e).

Definition io_lift {A : Type} (m : Exc A) : IO A := fun n => (n, m).

Definition io_bind {A B : Type} (m : IO A) (k : A -> IO B) : IO B :=
  fun n => match m n with
           | (n', Ok a) => k a n'
           | (n', Raise e) => (n', Raise e)
           end.

Notation "x <~ m ;; k" := (io_bind m (fun x => k)) (at level 61, m at next level, right associativity).
Notation "m ;~ k" := (io_bind m (fun _ => k)) (at level 61, right associativity).

Definition io_print (con : Console) (msg : Msg) : IO unit :=
  fun n => (S n, con_print con n msg).

(** [try: body except ...]: [handler] sees every exception and re-raises
    what it does not catch. *)
Definition io_handle {A : Type} (m : IO A) (handler : PyExc -> IO A) : IO A :=
  fun n => match m n with
           | (n', Ok a) => (n', Ok a)
           | (n', Raise e) => handler e n'
           end.

(** [try: body except Exception: handler] *)
Definition io_try {A : Type} (m : IO A) (handler : PyExc -> IO A) : IO A :=
  io_handle m (fun e => if exc_is_Exception e then handler e else io_raise e).

Section Loop.
Context {U : UnicodeDB}.

(** One iteration of the loop of [process_all_pdfs]: [true] when
    ["✓ Completed"] has been printed, [false] when the [except Exception]
    handler has printed ["✗ Failed"] (its [logger.error] does not raise). *)
Definition process_file (con : Console) (f : PdfFile) : IO bool :=
  io_try (io_print con (MsgProcessing (pdf_name f)) ;~
          _ <~ io_lift (extract_structure (pdf_open f)) ;;
          io_lift (save_output (pdf_write f)) ;~
          io_print con (MsgCompleted (pdf_name f)) ;~
          io_ret true)
         (fun e => io_print con (MsgFailed (pdf_name f) e) ;~ io_ret false).

(** The loop of [process_all_pdfs]: the files handled, each with its outcome. *)
Fixpoint process_all_pdfs (con : Console) (files : list PdfFile) : IO (list (string * bool)) :=
  match files with
  | [] => io_ret []
  | f :: fs =>
    ok <~ process_file con f ;;
    rest <~ process_all_pdfs con fs ;;
    io_ret ((pdf_name f, ok) :: rest)
  end.

End Loop.

(** What the file system does for [process_all_pdfs]: the outcome of
    [output_dir.mkdir(parents=True, exist_ok=True)], whether [/app/input]
    exists, and the outcome of [list(input_dir.glob("*.pdf"))].  Building
    [MultilingualPDFExtractor()] only compiles constant patterns and is not
    a source of errors. *)
Record BatchEnv := {
  out_mkdir : Exc unit;
  input_exists : bool;
  pdf_glob : Exc (list PdfFile)
}.

(** Where [process_all_pdfs] returns: one of its two early [return]s, or
    after the loop with the outcome of every file. *)
Inductive BatchEnd :=
  | NoInputDir
  | NoPdfFiles
  | Processed (outcomes : list (string * bool)).

Section Driver.
Context {U : UnicodeDB}.

(** [process_all_pdfs()] *)
Definition run_batch (con : Console) (env : BatchEnv) : IO BatchEnd :=
  io_lift (out_mkdir env) ;~
  if negb (input_exists env) then io_print con MsgInputMissing ;~ io_ret NoInputDir
  else
    files <~ io_lift (pdf_glob env) ;;
    match files with
    | [] => io_print con MsgNoPdfs ;~ io_ret NoPdfFiles
    | _ :: _ =>
      io_print con (MsgFound (List.length files)) ;~
      tr <~ process_all_pdfs con files ;;
      io_ret (Processed tr)
    end.

End Driver.

(** How [main] ends: ["All files processed successfully!"], ["Stopped by
    user"] ([except KeyboardInterrupt]), or [sys.exit(1)] after ["Error: ..."]. *)
Inductive MainEnd := AllProcessed | StoppedByUser | FatalExit.

Section Main.
Context {U : UnicodeDB}.

(** [main]; [except KeyboardInterrupt] is matched on the class name (no
    subclass of [KeyboardInterrupt] is raised here).  An exception raised by
    the [print] of a handler leaves [main]. *)
Definition main (con : Console) (env : BatchEnv) : IO MainEnd :=
  io_handle (run_batch con env ;~ io_print con MsgAllDone ;~ io_ret AllProcessed)
            (fun e =>
               if String.eqb (exc_name e) "KeyboardInterrupt"
               then io_print con MsgStopped ;~ io_ret StoppedByUser
               else if exc_is_Exception e
               then io_print con (MsgError e) ;~ io_ret FatalExit
               else io_raise e).

End Main.

(** ** A concrete character database

    [py_db] answers as CPython 3.11 ([unicodedata] 14.0.0) does on the code
    points it covers: ASCII, the Latin-1 letters, no-break space and the
    angle quotation marks, Cyrillic U+0400..U+045F, the Arabic letters
    U+0621..U+063A and U+0641..U+064A with the Arabic semicolon and the
    Persian letters پ چ ژ گ, the Arabic-Indic digits, CJK unified ideographs
    U+4E00..U+9FEF, hiragana U+3041..U+3096, katakana U+30A1..U+30FA, Hangul
    syllables, the ideographic comma and full stop, the full-width colon and
    the circled digits ①..⑩.  All of these are unchanged by NFC.  Elsewhere
    it answers as for an unassigned code point. *)

Module PyDB.

Definition in_r (lo hi c : Z) : bool := (lo <=? c) && (c <=? hi).

(** [unicodedata.name(chr(c)).split()[0]] for [c] in 32..126. *)
Definition ascii_name_words : list string := [
  "SPACE"; "EXCLAMATION"; "QUOTATION"; "NUMBER"; "DOLLAR"; "PERCENT"; "AMPERSAND";
  "APOSTROPHE"; "LEFT"; "RIGHT"; "ASTERISK"; "PLUS"; "COMMA"; "HYPHEN-MINUS"; "FULL";
  "SOLIDUS"; "DIGIT"; "DIGIT"; "DIGIT"; "DIGIT"; "DIGIT"; "DIGIT"; "DIGIT"; "DIGIT";
  "DIGIT"; "DIGIT"; "COLON"; "SEMICOLON"; "LESS-THAN"; "EQUALS"; "GREATER-THAN";
  "QUESTION"; "COMMERCIAL";
  "LATIN"; "LATIN"; "LATIN"; "LATIN"; "LATIN"; "LATIN"; "LATIN"; "LATIN"; "LATIN";
  "LATIN"; "LATIN"; "LATIN"; "LATIN"; "LATIN"; "LATIN"; "LATIN"; "LATIN"; "LATIN";
  "LATIN"; "LATIN"; "LATIN"; "LATIN"; "LATIN"; "LATIN"; "LATIN"; "LATIN";
  "LEFT"; "REVERSE"; "RIGHT"; "CIRCUMFLEX"; "LOW"; "GRAVE";
  "LATIN"; "LATIN"; "LATIN"; "LATIN"; "LATIN"; "LATIN"; "LATIN"; "LATIN"; "LATIN";
  "LATIN"; "LATIN"; "LATIN"; "LATIN"; "LATIN"; "LATIN"; "LATIN"; "LATIN"; "LATIN";
  "LATIN"; "LATIN"; "LATIN"; "LATIN"; "LATIN"; "LATIN"; "LATIN"; "LATIN";
  "LEFT"; "VERTICAL"; "RIGHT"; "TILDE"]%string.

Definition ascii_upper (c : Z) : bool := in_r 65 90 c.
Definition ascii_lower (c : Z) : bool := in_r 97 122 c.
Definition ascii_digit (c : Z) : bool := in_r 48 57 c.
Definition latin1_upper (c : Z) : bool := in_r 192 222 c && negb (c =? 215).
Definition latin1_lower (c : Z) : bool := in_r 223 255 c && negb (c =? 247).
Definition cyr_upper (c : Z) : bool := in_r 1024 1071 c.
Definition cyr_lower (c : Z) : bool := in_r 1072 1119 c.
Definition arabic_letter (c : Z) : bool :=
  in_r 1569 1594 c || in_r 1601 1610 c || zin c [1662; 1670; 1688; 1711].
Definition arabic_indic_digit (c : Z) : bool := in_r 1632 1641 c.
Definition cjk_ideograph (c : Z) : bool := in_r 19968 40943 c.
Definition hiragana (c : Z) : bool := in_r 12353 12438 c.
Definition katakana (c : Z) : bool := in_r 12449 12538 c.
Definition hangul (c : Z) : bool := in_r 44032 55203 c.
Definition circled_digit (c : Z) : bool := in_r 9312 9321 c.

Definition py_name_word (c : Z) : option string :=
  if in_r 32 126 c then nth_error ascii_name_words (Z.to_nat (c - 32))
  else if c =? 160 then Some "NO-BREAK"%string
  else if c =? 171 then Some "LEFT-POINTING"%string
  else if c =? 187 then Some "RIGHT-POINTING"%string
  else if latin1_upper c || latin1_lower c then Some "LATIN"%string
  else if cyr_upper c || cyr_lower c then Some "CYRILLIC"%string
  else if arabic_letter c || (c =? 1563) then Some "ARABIC"%string
  else if arabic_indic_digit c then Some "ARABIC-INDIC"%string
  else if cjk_ideograph c then Some "CJK"%string
  else if hiragana c then Some "HIRAGANA"%string
  else if katakana c then Some "KATAKANA"%string
  else if hangul c then Some "HANGUL"%string
  else if (c =? 12289) || (c =? 12290) then Some "IDEOGRAPHIC"%string
  else if c =? 65306 then Some "FULLWIDTH"%string
  else if circled_digit c then Some "CIRCLED"%string
  else None.

Definition py_isspace (c : Z) : bool :=
  in_r 9 13 c || in_r 28 32 c || (c =? 160).
Definition py_isdecimal (c : Z) : bool := ascii_digit c || arabic_indic_digit c.
Definition py_isdigit (c : Z) : bool := py_isdecimal c || circled_digit c.
Definition py_isalnum (c : Z) : bool :=
  ascii_upper c || ascii_lower c || py_isdigit c || latin1_upper c || latin1_lower c
  || cyr_upper c || cyr_lower c || arabic_letter c || cjk_ideograph c
  || hiragana c || katakana c || hangul c.
Definition py_islower (c : Z) : bool := ascii_lower c || latin1_lower c || cyr_lower c.
Definition py_isupper (c : Z) : bool := ascii_upper c || latin1_upper c || cyr_upper c.

Definition py_lower1 (c : Z) : Z :=
  if ascii_upper c || latin1_upper c || in_r 1040 1071 c then c + 32
  else if in_r 1024 1039 c then c + 80
  else c.

Definition py_upper1 (c : Z) : Z :=
  if ascii_lower c || (latin1_lower c && negb (c =? 223) && negb (c =? 255))
     || in_r 1072 1103 c then c - 32
  else if c =? 255 then 376
  else if in_r 1104 1119 c then c - 80
  else c.

#[export] Instance py_db : UnicodeDB := {
  ud_name_word := py_name_word;
  ud_isspace := py_isspace;
  ud_isdigit := py_isdigit;
  ud_isdecimal := py_isdecimal;
  ud_isalnum := py_isalnum;
  ud_islower := py_islower;
  ud_isupper := py_isupper;
  ud_istitle := fun _ => false;
  ud_lower := fun c => [py_lower1 c];
  ud_lower1 := py_lower1;
  ud_upper1 := py_upper1;
  ud_nfc := fun s => s
}.

End PyDB.

(** ** Sample inputs

    A one-page report: a bold 24pt title line at the top, ten lines of 10pt
    body text, and a bold 16pt contact line near the bottom of the page. *)

Definition mk_span (sx0 sy0 sx1 sy1 sz : Q) (fl : Z) (t : string) : Span :=
  {| span_x0 := sx0; span_y0 := sy0; span_x1 := sx1; span_y1 := sy1; span_size := sz;
     span_font := u8 "Helvetica"; span_flags := fl; span_text := u8 t |}.

Definition one_span (s : Span) : RawBlock := Some [[s]].

Definition body_line (k : Z) : RawBlock :=
  one_span (mk_span 50 (100 + 20 * inject_Z k) 550 (112 + 20 * inject_Z k) 10 0
    "The figures in this part of the report are given for each quarter and each region of the company as they were measured in the last year").

Definition contact_text : list Z := u8 "Contact: info@example.com".

Definition report_page : PageData :=
  {| page_rect_width := 600; page_rect_height := 800;
     page_raw_blocks :=
       one_span (mk_span 200 40 400 70 24 16 "Annual Report 2024")
       :: map body_line [0; 1; 2; 3; 4; 5; 6; 7; 8; 9]
       ++ [one_span (mk_span 220 600 380 616 16 16 "Contact: info@example.com")] |}.

Definition report_doc : Document := {| doc_pages := [Ok report_page]; doc_close := Ok tt |}.

Definition empty_block : Block :=
  {| text := []; page := 0; font_size := 0; font_name := []; flags := 0;
     x0 := 0; y0 := 0; x1 := 0; y1 := 0; page_width := 0; page_height := 0;
     char_count := 0; word_count := 0; line_height := 0; script_type := SUnknown |}.

(** The blocks [_get_text_blocks] extracts from the report. *)
Definition report_blocks : list Block :=
  match get_text_blocks (U:=PyDB.py_db) report_doc 1 with Ok bs => bs | Raise _ => [] end.

Definition report_result : Result :=
  match extract_structure (U:=PyDB.py_db) (Ok report_doc) with Ok r => r | Raise _ => empty_result end.

(** A 60-page document: the sample report page, pages of body text, and on
    page 55 an appendix heading. *)
Definition plain_page : PageData :=
  {| page_rect_width := 600; page_rect_height := 800; page_raw_blocks := [body_line 0] |}.

Definition appendix_text : list Z := u8 "Appendix: Regional Data".

Definition appendix_page : PageData :=
  {| page_rect_width := 600; page_rect_height := 800;
     page_raw_blocks := [one_span (mk_span 200 40 400 70 24 16 "Appendix: Regional Data"); body_line 0] |}.

Definition long_doc : Document :=
  {| doc_pages := Ok report_page :: repeat (Ok plain_page) 54
                  ++ Ok appendix_page :: repeat (Ok plain_page) 4;
     doc_close := Ok tt |}.

Definition long_blocks : list Block :=
  match get_text_blocks (U:=PyDB.py_db) long_doc (Nat.min (List.length (doc_pages long_doc)) page_limit)
  with Ok bs => bs | Raise _ => [] end.

Definition long_result : Result :=
  match extract_structure (U:=PyDB.py_db) (Ok long_doc) with Ok r => r | Raise _ => empty_result end.

(** A page of 1001 short text blocks, one past [memory_threshold]. *)
Definition crowded_page : PageData :=
  {| page_rect_width := 600; page_rect_height := 800;
     page_raw_blocks := repeat (one_span (mk_span 50 100 90 110 10 0 "ab")) 1001 |}.

Definition crowded_doc : Document := {| doc_pages := [Ok crowded_page]; doc_close := Ok tt |}.

(** A five-page document whose second page raises when accessed and whose
    fourth page reaches [memory_threshold]. *)
Definition patchy_doc : Document :=
  {| doc_pages := [Ok appendix_page;
                   Raise {| exc_name := "RuntimeError"; exc_is_Exception := true |};
                   Ok plain_page; Ok crowded_page; Ok plain_page];
     doc_close := Ok tt |}.

Definition patchy_blocks : list Block :=
  match get_text_blocks (U:=PyDB.py_db) patchy_doc 5 with Ok bs => bs | Raise _ => [] end.

(** [KeyboardInterrupt] derives from [BaseException] only. *)
Definition keyboard_interrupt : PyExc := {| exc_name := "KeyboardInterrupt"; exc_is_Exception := false |}.

(** A file PyMuPDF cannot open, and a readable one. *)
Definition broken_file : PdfFile :=
  {| pdf_name := "broken.pdf";
     pdf_open := Raise {| exc_name := "FileDataError"; exc_is_Exception := true |};
     pdf_write := Ok tt |}.

Definition report_file : PdfFile := {| pdf_name := "report.pdf"; pdf_open := Ok report_doc; pdf_write := Ok tt |}.

Definition interrupted_file : PdfFile :=
  {| pdf_name := "interrupted.pdf"; pdf_open := Raise keyboard_interrupt; pdf_write := Ok tt |}.

(** The first entry of the sample outline, and its block. *)
Definition contact_entry : OutlineEntry := {| out_level := H1; out_text := contact_text; out_page := 0 |}.

Definition contact_block : Block := last report_blocks empty_block.

(** One step of the counting loop of [_get_script_type]. *)
Definition count_step {U : UnicodeDB} (acc : list (Script * nat)) (c : Z) : list (Script * nat) :=
  if script_ignored c then acc else bump (char_script c) acc.

(** The order the final sort establishes between consecutive headings. *)
Definition heading_order (a b : Block * Level) : Prop :=
  (page (fst a) < page (fst b))%nat
  \/ (page (fst a) = page (fst b) /\ (y0 (fst a) <= y0 (fst b))%Q).

(** The order of [sorted(spans, key=lambda s: (s["bbox"][1], s["bbox"][0]))]. *)
Definition span_order (a b : Span) : Prop :=
  (span_y0 a < span_y0 b)%Q \/ ((span_y0 a == span_y0 b)%Q /\ (span_x0 a <= span_x0 b)%Q).

(** The first block of the sample report: its title line. *)
Definition title_block : Block := hd empty_block report_blocks.

(** The blocks of the sample report as candidates, with a dummy score. *)
Definition report_candidates : list (Block * unit) := map (fun b => (b, tt)) report_blocks.

(** A line of two spans, the first of them blank. *)
Definition titled_spans : list Span :=
  [mk_span 100 40 120 60 12 0 "  "; mk_span 120 40 400 64 20 16 "Quarterly Results"].

(** A run where creating the output directory is refused. *)
Definition denied_env : BatchEnv :=
  {| out_mkdir := Raise {| exc_name := "PermissionError"; exc_is_Exception := true |};
     input_exists := true; pdf_glob := Ok [] |}.

(** A console on which every [print] succeeds. *)
Definition quiet_console : Console := {| con_print := fun _ _ => Ok tt |}.

(** [UnicodeEncodeError] derives from [Exception]. *)
Definition unicode_encode_error : PyExc := {| exc_name := "UnicodeEncodeError"; exc_is_Exception := true |}.

(** A console whose encoding lacks ["✓"] and ["✗"] (ASCII, or a Windows
    code page): printing ["✓ Completed"] or ["✗ Failed"] raises. *)
Definition ascii_console : Console :=
  {| con_print := fun _ msg =>
       match msg with
       | MsgCompleted _ | MsgFailed _ _ => Raise unicode_encode_error
       | _ => Ok tt
       end |}.

(** A console whose first [print] fails with [OSError] (an interrupted
    write), and later ones succeed. *)
Definition flaky_console : Console :=
  {| con_print := fun k _ =>
       match k with
       | O => Raise {| exc_name := "OSError"; exc_is_Exception := true |}
       | S _ => Ok tt
       end |}.

(** A run over the two sample files. *)
Definition two_file_env : BatchEnv :=
  {| out_mkdir := Ok tt; input_exists := true; pdf_glob := Ok [report_file; broken_file] |}.

(** A span whose text is only whitespace: [_make_text_block] skips it. *)
Definition blank_span {U : UnicodeDB} (sp : Span) : bool :=
  Nat.eqb (List.length (strip (span_text sp))) 0.

(** No two neighbouring characters of the text are both whitespace. *)
Fixpoint no_ws_run {U : UnicodeDB} (s : list Z) : bool :=
  match s with
  | [] => true
  | c :: s' =>
    match s' with
    | [] => true
    | d :: _ => negb (ud_isspace c && ud_isspace d) && no_ws_run s'
    end
  end.

(** * Properties *)

(** ** The stable sort and [max] *)

Section SortFacts.
Context {A : Type} (lt : A -> A -> bool) (R : A -> A -> Prop).
Hypothesis lt_true : forall a b, lt a b = true -> R a b.
Hypothesis lt_false : forall a b, lt a b = false -> R b a.

Lemma ins_hdrel : forall x y l, HdRel R y l -> R y x -> HdRel R y (ins lt x l).
Proof.
  intros x y l Hhd Hyx. destruct l as [|z zs]; simpl.
  - constructor. exact Hyx.
  - destruct (lt x z).
    + constructor. exact Hyx.
    + inversion Hhd; subst. constructor. assumption.
Qed.

Lemma ins_sorted : forall x l, Sorted R l -> Sorted R (ins lt x l).
Proof.
  intros x l; induction l as [|y ys IH]; intros Hs; simpl.
  - repeat constructor.
  - inversion Hs as [|? ? Hys Hhd]; subst.
    case_eq (lt x y); intros Hxy.
    + constructor; [exact Hs | constructor; apply lt_true; exact Hxy].
    + constructor; [apply IH; exact Hys | apply ins_hdrel; [exact Hhd | apply lt_false; exact Hxy]].
Qed.

Lemma sort_by_sorted_acc : forall l acc,
  Sorted R acc -> Sorted R (fold_left (fun acc x => ins lt x acc) l acc).
Proof.
  induction l as [|x l IH]; intros acc Hacc; simpl.
  - exact Hacc.
  - apply IH, ins_sorted, Hacc.
Qed.

Lemma sort_by_sorted : forall l, Sorted R (sort_by lt l).
Proof. intros l. apply sort_by_sorted_acc. constructor. Qed.

End SortFacts.

Section SortIn.
Context {A : Type} (lt : A -> A -> bool).

Lemma in_ins : forall x y l, In y (ins lt x l) <-> x = y \/ In y l.
Proof.
  intros x y l; induction l as [|z zs IH]; simpl.
  - tauto.
  - destruct (lt x z); simpl; [tauto|]. rewrite IH. tauto.
Qed.

Lemma in_sort_by_acc : forall y l acc,
  In y (fold_left (fun acc x => ins lt x acc) l acc) <-> In y l \/ In y acc.
Proof.
  intros y l; induction l as [|x l IH]; intros acc; simpl.
  - tauto.
  - rewrite IH, in_ins. tauto.
Qed.

Lemma in_sort_by : forall y l, In y (sort_by lt l) <-> In y l.
Proof. intros y l. unfold sort_by. rewrite in_sort_by_acc. simpl. tauto. Qed.

Lemma py_max_in : forall gt (x : A) rest, In (py_max gt x rest) (x :: rest).
Proof.
  intros gt x rest; revert x; unfold py_max.
  induction rest as [|r rs IH]; intros x; simpl; [auto|].
  destruct (gt r x).
  - specialize (IH r). simpl in IH. destruct IH; auto.
  - specialize (IH x). simpl in IH. destruct IH; auto.
Qed.

End SortIn.

(** ** C1: the outline is in reading order *)


Lemma Qlt_bool_iff : forall a b, Qlt_bool a b = true <-> (a < b)%Q.
Proof.
  intros a b. unfold Qlt_bool. rewrite negb_true_iff.
  split; intros H.
  - apply Qnot_le_lt. intros Hle. apply Qle_bool_iff in Hle. congruence.
  - destruct (Qle_bool b a) eqn:E; [|reflexivity].
    apply Qle_bool_iff in E. exfalso. apply (Qlt_not_le a b); assumption.
Qed.

Lemma Qlt_bool_false : forall a b, Qlt_bool a b = false -> (b <= a)%Q.
Proof.
  intros a b H. unfold Qlt_bool in H. apply negb_false_iff in H.
  apply Qle_bool_iff, H.
Qed.

Lemma heading_key_lt_true : forall a b, heading_key_lt a b = true -> heading_order a b.
Proof.
  intros a b H. unfold heading_key_lt in H. unfold heading_order.
  apply orb_true_iff in H as [H|H].
  - left. apply Nat.ltb_lt, H.
  - apply andb_true_iff in H as [Hp Hy]. right. split.
    + apply Nat.eqb_eq, Hp.
    + apply Qlt_le_weak, Qlt_bool_iff, Hy.
Qed.

Lemma heading_key_lt_false : forall a b, heading_key_lt a b = false -> heading_order b a.
Proof.
  intros a b H. unfold heading_key_lt in H. unfold heading_order.
  apply orb_false_iff in H as [Hlt Heq].
  apply Nat.ltb_ge in Hlt.
  destruct (Nat.eq_dec (page (fst a)) (page (fst b))) as [E|E].
  - right. split; [symmetry; exact E|].
    rewrite E, Nat.eqb_refl in Heq. simpl in Heq. apply Qlt_bool_false, Heq.
  - left. lia.
Qed.

Section OutlineOrder.
Context {U : UnicodeDB}.

(** C1: for every document, consecutive entries of the outline that
    [_build_outline] emits are ordered by page and then by the top
    coordinate [y0] of their source blocks; each emitted entry is its
    source heading formatted, so the emitted pages follow that order. *)
Theorem build_outline_sorted : forall blocks structure title language,
  Sorted heading_order (outline_headings blocks structure title language)
  /\ build_outline blocks structure title language
     = map format_heading (outline_headings blocks structure title language)
  /\ map out_page (build_outline blocks structure title language)
     = map (fun h => page (fst h)) (outline_headings blocks structure title language).
Proof.
  intros blocks structure title language. split; [|split].
  - unfold outline_headings.
    apply (sort_by_sorted heading_key_lt heading_order heading_key_lt_true heading_key_lt_false).
  - reflexivity.
  - unfold build_outline. rewrite map_map. reflexivity.
Qed.

End OutlineOrder.

(** ** Where the headings of the outline come from *)

Section OutlineSources.
Context {U : UnicodeDB}.

Lemma remove_title_matches_incl : forall {A} (cands : list (Block * A)) title x,
  In x (remove_title_matches cands title) -> In x cands.
Proof.
  intros A cands title x H. unfold remove_title_matches in H.
  destruct title as [|c cs]; [exact H|]. apply filter_In in H. apply H.
Qed.

Lemma similarity_empty_l : forall bw, (similarity [] bw < 4 # 10)%Q.
Proof. intros bw. unfold similarity, Qlt. simpl. lia. Qed.

Lemma filter_none_nil : forall (tw : list (list Z)),
  filter (fun w => existsb (list_Z_eqb w) []) tw = [].
Proof. induction tw as [|w tw IH]; simpl; auto. Qed.

Lemma similarity_empty_r : forall tw, (similarity tw [] < 4 # 10)%Q.
Proof. intros tw. unfold similarity. rewrite filter_none_nil. unfold Qlt. simpl. lia. Qed.

Lemma remove_title_matches_sim : forall {A} (cands : list (Block * A)) title x,
  title <> [] -> In x (remove_title_matches cands title) ->
  (similarity (word_set title) (word_set (text (fst x))) < 4 # 10)%Q.
Proof.
  intros A cands title x Hne H. unfold remove_title_matches in H.
  destruct title as [|c cs]; [congruence|]. apply filter_In in H as [_ H].
  destruct (word_set (c :: cs)) as [|tw0 tws] eqn:Etw.
  - apply similarity_empty_l.
  - destruct (word_set (text (fst x))) as [|bw0 bws] eqn:Ebw.
    + apply similarity_empty_r.
    + apply Qlt_bool_iff, H.
Qed.

(** Every heading of the sorted outline is a candidate that survived
    [_remove_title_matches], paired with the level [_assign_levels] gives it. *)
Lemma outline_headings_inv : forall blocks structure title language h,
  In h (outline_headings blocks structure title language) ->
  snd h = assign_level (fst h) language
  /\ exists s, In (fst h, s)
       (remove_title_matches
          (filter (fun bs => PrimFloat.ltb 0.4 (snd bs))
             (map (fun b => (b, score_heading_candidate b structure language)) blocks))
          title).
Proof.
  intros blocks structure title language h H. unfold outline_headings in H.
  apply in_sort_by in H. unfold assign_levels in H. apply in_map_iff in H as [b [Eh Hb]].
  subst h. simpl. split; [reflexivity|].
  apply in_map_iff in Hb as [[b' s] [Eb Hbs]]. simpl in Eb. subst b'.
  apply filter_In in Hbs as [Hbs _]. exists s. exact Hbs.
Qed.

Lemma outline_headings_from_blocks : forall blocks structure title language h,
  In h (outline_headings blocks structure title language) -> In (fst h) blocks.
Proof.
  intros blocks structure title language h H.
  apply outline_headings_inv in H as [_ [s Hs]].
  apply remove_title_matches_incl, filter_In in Hs as [Hs _].
  apply in_map_iff in Hs as [b [Eb Hb]]. inversion Eb; subst. exact Hb.
Qed.

(** C4: when the title passed to [_build_outline] is non-empty, every entry
    of the emitted outline comes from a heading block whose word set (lower
    case, NFC, [split()], duplicates removed) has Jaccard overlap
    [|A∩B| / max(|A|,|B|)] with the title's word set strictly below 0.4. *)
Theorem build_outline_title_overlap : forall blocks structure title language,
  title <> [] ->
  forall e, In e (build_outline blocks structure title language) ->
  exists h, In h (outline_headings blocks structure title language)
    /\ e = format_heading h
    /\ (similarity (word_set title) (word_set (text (fst h))) < 4 # 10)%Q.
Proof.
  intros blocks structure title language Hne e He.
  unfold build_outline in He. apply in_map_iff in He as [h [Eh Hh]].
  exists h. split; [exact Hh|]. split; [symmetry; exact Eh|].
  apply outline_headings_inv in Hh as [_ [s Hs]].
  apply (remove_title_matches_sim _ _ (fst h, s) Hne Hs).
Qed.

(** C6: [_assign_levels] is the cascade H1 test, then H2 test, default H3,
    first match winning; in particular a bold heading of size at least 14
    on page 0 or 1 is H1 whatever its text. *)
Theorem assign_levels_cascade : forall headings language b lv,
  In (b, lv) (assign_levels headings language) ->
  let text_lower := lower (strip (text b)) in
  ((page b <= 1)%nat /\ is_bold b = true /\ (14 <= font_size b)%Q -> lv = H1)
  /\ (is_major_section text_lower b language = true -> lv = H1)
  /\ (is_major_section text_lower b language = false ->
      is_subsection text_lower b language = true -> lv = H2)
  /\ (is_major_section text_lower b language = false ->
      is_subsection text_lower b language = false -> lv = H3).
Proof.
  intros headings language b lv H text_lower.
  unfold assign_levels in H. apply in_map_iff in H as [b' [E _]].
  inversion E; subst b' lv. unfold assign_level. fold text_lower.
  split; [|split; [|split]].
  - intros [Hp [Hb Hf]].
    assert (Hmaj : is_major_section text_lower b language = true).
    { unfold is_major_section.
      destruct (existsb _ _); [reflexivity|].
      destruct (match script_type b with SCjk => _ | _ => _ end); [reflexivity|].
      rewrite Hb. apply Nat.leb_le in Hp. rewrite Hp. apply Qle_bool_iff in Hf.
      rewrite Hf. reflexivity. }
    rewrite Hmaj. reflexivity.
  - intros Hm. rewrite Hm. reflexivity.
  - intros Hm Hs. rewrite Hm, Hs. reflexivity.
  - intros Hm Hs. rewrite Hm, Hs. reflexivity.
Qed.

End OutlineSources.

(** ** Block extraction: pages and the memory cap *)

Section Extraction.
Context {U : UnicodeDB}.

Lemma make_text_block_page : forall spans p pw ph b,
  make_text_block spans p pw ph = Some b -> page b = p.
Proof.
  intros spans p pw ph b H. unfold make_text_block in H.
  destruct spans as [|sp0 sps]; [discriminate|]. cbv zeta in H.
  destruct (map (fun sp => ud_nfc (strip (span_text sp))) _); [discriminate|].
  destruct (map span_size _); [discriminate|].
  inversion H. reflexivity.
Qed.

Lemma process_block_lines_page : forall lines p pw ph b,
  In b (process_block_lines lines p pw ph) -> page b = p.
Proof.
  intros lines p pw ph b H. unfold process_block_lines in H.
  apply in_flat_map in H as [spans [_ H]]. apply in_flat_map in H as [g [_ H]].
  destruct (make_text_block g p pw ph) as [b'|] eqn:E; [|destruct H].
  destruct (is_useful_text (text b')); [|destruct H].
  destruct H as [<-|[]]. eapply make_text_block_page; eauto.
Qed.

Lemma in_firstn_incl : forall {A} n (l : list A) x, In x (firstn n l) -> In x l.
Proof.
  intros A n l x H. rewrite <- (firstn_skipn n l). apply in_or_app. left. exact H.
Qed.

(** What one page contributes: the accumulated blocks stay within the cap
    and every new block carries the page index. *)
Lemma page_loop_spec : forall (P : Block -> Prop) raws i pw ph acc,
  (forall b, In b acc -> P b) -> (forall b, page b = i -> P b) ->
  (List.length acc <= memory_threshold)%nat ->
  match page_loop raws i pw ph acc with
  | inl r | inr r => (forall b, In b r -> P b) /\ (List.length r <= memory_threshold)%nat
  end.
Proof.
  intros P raws; induction raws as [|rb raws IH]; intros i pw ph acc Hacc Hnew Hlen;
    cbn [page_loop].
  - split; assumption.
  - destruct rb as [lines|]; [|apply IH; assumption].
    set (acc' := acc ++ process_block_lines lines i pw ph).
    assert (Hacc' : forall b, In b acc' -> P b).
    { intros b Hb. apply in_app_or in Hb as [Hb|Hb]; [apply Hacc, Hb|].
      apply Hnew. eapply process_block_lines_page; eauto. }
    destruct (Nat.ltb memory_threshold (List.length acc')) eqn:Ecap.
    + split.
      * intros b Hb. apply Hacc'. exact (in_firstn_incl _ _ _ Hb).
      * apply firstn_le_length.
    + apply IH; [exact Hacc' | exact Hnew | apply Nat.ltb_ge, Ecap].
Qed.

Lemma pages_loop_spec : forall (P : Block -> Prop) doc idxs acc bs,
  (forall b, In b acc -> P b) ->
  (forall i b, In i idxs -> page b = i -> P b) ->
  (List.length acc <= memory_threshold)%nat ->
  pages_loop doc idxs acc = Ok bs ->
  (forall b, In b bs -> P b) /\ (List.length bs <= memory_threshold)%nat.
Proof.
  intros P doc idxs; induction idxs as [|i idxs IH]; intros acc bs Hacc Hnew Hlen H; simpl in H.
  - inversion H; subst. split; assumption.
  - destruct (get_page doc i) as [pd|e].
    + pose proof (page_loop_spec P (page_raw_blocks pd) i (page_rect_width pd)
                    (page_rect_height pd) acc Hacc (fun b => Hnew i b (or_introl eq_refl)) Hlen) as Hp.
      destruct (page_loop _ _ _ _ _) as [acc'|r].
      * destruct Hp as [Hp1 Hp2]. apply (IH acc'); auto.
        intros j b Hj Hb. apply (Hnew j); [right|]; assumption.
      * inversion H; subst. exact Hp.
    + destruct (exc_is_Exception e); [|discriminate].
      apply (IH acc); auto. intros j b Hj Hb. apply (Hnew j); [right|]; assumption.
Qed.

Lemma pages_loop_total : forall doc idxs acc,
  (forall i e, get_page doc i = Raise e -> exc_is_Exception e = true) ->
  exists bs, pages_loop doc idxs acc = Ok bs.
Proof.
  intros doc idxs; induction idxs as [|i idxs IH]; intros acc Hexc; simpl.
  - eexists; reflexivity.
  - destruct (get_page doc i) as [pd|e] eqn:Ep.
    + destruct (page_loop _ _ _ _ _) as [acc'|r]; [apply IH, Hexc|eexists; reflexivity].
    + rewrite (Hexc i e Ep). apply IH, Hexc.
Qed.

(** C9: [_get_text_blocks] never returns more than [memory_threshold] (1000)
    blocks, and reaching the cap is not an error: when no page access raises
    an exception outside [Exception], it returns a list of blocks. *)
Theorem get_text_blocks_capped : forall doc n,
  (forall i e, get_page doc i = Raise e -> exc_is_Exception e = true) ->
  exists bs, get_text_blocks doc n = Ok bs /\ (List.length bs <= memory_threshold)%nat.
Proof.
  intros doc n Hexc. destruct (pages_loop_total doc (seq 0 n) [] Hexc) as [bs Hbs].
  exists bs. split; [exact Hbs|].
  apply (pages_loop_spec (fun _ => True) doc (seq 0 n) [] bs); auto.
  simpl. unfold memory_threshold. lia.
Qed.

Lemma get_text_blocks_bounds : forall doc n bs,
  get_text_blocks doc n = Ok bs ->
  (forall b, In b bs -> (page b < n)%nat) /\ (List.length bs <= memory_threshold)%nat.
Proof.
  intros doc n bs H.
  apply (pages_loop_spec (fun b => (page b < n)%nat) doc (seq 0 n) [] bs); auto.
  - intros b [].
  - intros i b Hi Hb. apply in_seq in Hi. lia.
  - simpl. unfold memory_threshold. lia.
Qed.

End Extraction.

(** ** Shape of the result of [extract_structure] *)

Section ResultShape.
Context {U : UnicodeDB}.

Lemma try_except_ok : forall {A} (m : Exc A) h r,
  try_except m h = Ok r -> m = Ok r \/ exists e, m = Raise e /\ h e = Ok r.
Proof.
  intros A m h r H. destruct m as [a|e]; simpl in H.
  - left. exact H.
  - right. exists e. destruct (exc_is_Exception e); [split; auto|discriminate].
Qed.

Lemma extract_body_ok : forall doc r,
  extract_body doc = Ok r ->
  r = empty_result
  \/ exists bs, get_text_blocks doc (Nat.min (List.length (doc_pages doc)) page_limit) = Ok bs
       /\ res_outline r = build_outline bs (analyze_structure bs (guess_language bs))
                            (find_title bs (analyze_structure bs (guess_language bs)) (guess_language bs))
                            (guess_language bs).
Proof.
  intros doc r H. unfold extract_body in H.
  destruct (get_text_blocks doc _) as [bs|e] eqn:Eg; simpl in H; [|discriminate].
  destruct bs as [|b bs'].
  - destruct (doc_close doc); simpl in H; [|discriminate]. inversion H. left. reflexivity.
  - destruct (doc_close doc); simpl in H; [|discriminate]. inversion H; subst.
    right. exists (b :: bs'). split; reflexivity.
Qed.

Lemma extract_structure_ok : forall opened r,
  extract_structure opened = Ok r ->
  r = empty_result
  \/ exists doc bs, opened = Ok doc
       /\ get_text_blocks doc (Nat.min (List.length (doc_pages doc)) page_limit) = Ok bs
       /\ res_outline r = build_outline bs (analyze_structure bs (guess_language bs))
                            (find_title bs (analyze_structure bs (guess_language bs)) (guess_language bs))
                            (guess_language bs).
Proof.
  intros opened r H. unfold extract_structure in H.
  apply try_except_ok in H as [H|[e [_ He]]].
  - destruct opened as [doc|e]; simpl in H; [|discriminate].
    apply extract_body_ok in H as [H|[bs [Hb Ho]]]; [left; exact H|].
    right. exists doc, bs. auto.
  - inversion He. left. reflexivity.
Qed.

(** C10: only the first [page_limit] (50) pages are read: every block that
    [_get_text_blocks] extracts for [extract_structure], and so every title
    candidate and heading, comes from a page below 50, and every ["page"]
    value of the returned outline is below 50, whatever the length of the
    document. *)
Theorem extract_structure_page_cap :
  (forall doc bs, get_text_blocks doc (Nat.min (List.length (doc_pages doc)) page_limit) = Ok bs ->
     forall b, In b bs -> (page b < page_limit)%nat)
  /\ (forall opened r, extract_structure opened = Ok r ->
     forall e, In e (res_outline r) -> (out_page e < page_limit)%nat).
Proof.
  split.
  - intros doc bs Hb b Hin. apply get_text_blocks_bounds in Hb as [Hb _].
    specialize (Hb b Hin). lia.
  - intros opened r H e He.
    apply extract_structure_ok in H as [H|[doc [bs [_ [Hb Ho]]]]].
    + subst r. destruct He.
    + rewrite Ho in He. unfold build_outline in He.
      apply in_map_iff in He as [h [Eh Hh]]. subst e. simpl.
      apply outline_headings_from_blocks in Hh.
      apply get_text_blocks_bounds in Hb as [Hb _].
      specialize (Hb _ Hh). lia.
Qed.

End ResultShape.

(** ** Font statistics *)

Section FontStats.

Lemma ins_perm : forall {A} (lt : A -> A -> bool) x l, Permutation (ins lt x l) (x :: l).
Proof.
  intros A lt x l; induction l as [|y ys IH]; simpl; [reflexivity|].
  destruct (lt x y); [reflexivity|].
  rewrite IH. apply perm_swap.
Qed.

Lemma sort_by_perm_acc : forall {A} (lt : A -> A -> bool) l acc,
  Permutation (fold_left (fun acc x => ins lt x acc) l acc) (rev l ++ acc).
Proof.
  intros A lt l; induction l as [|x l IH]; intros acc; simpl; [reflexivity|].
  rewrite IH, ins_perm, <- app_assoc. reflexivity.
Qed.

Lemma sort_by_perm : forall {A} (lt : A -> A -> bool) l, Permutation (sort_by lt l) l.
Proof.
  intros A lt l. unfold sort_by. rewrite sort_by_perm_acc, app_nil_r.
  symmetry. apply Permutation_rev.
Qed.

Lemma sort_sizes_sorted : forall l, Sorted Qle (sort_by Qlt_bool l).
Proof.
  apply sort_by_sorted.
  - intros a b H. apply Qlt_le_weak, Qlt_bool_iff, H.
  - apply Qlt_bool_false.
Qed.

Lemma last_in : forall {A} (l : list A) d, l <> [] -> In (last l d) l.
Proof.
  intros A l d; induction l as [|x [|y ys] IH]; intros H; [congruence|left; reflexivity|].
  right. apply IH. discriminate.
Qed.

Lemma strongly_sorted_last : forall l d x,
  StronglySorted Qle l -> In x l -> (x <= last l d)%Q.
Proof.
  induction l as [|y ys IH]; intros d x Hs Hx; [destruct Hx|].
  inversion Hs as [|? ? Hys Hall]; subst.
  destruct ys as [|z zs].
  - destruct Hx as [<-|[]]. simpl. apply Qle_refl.
  - change (last (y :: z :: zs) d) with (last (z :: zs) d).
    destruct Hx as [<-|Hx].
    + apply Qle_trans with z.
      * rewrite Forall_forall in Hall. apply Hall. left. reflexivity.
      * apply IH; [exact Hys|left; reflexivity].
    + apply IH; assumption.
Qed.

Lemma q_max_ge : forall x rest y, In y (x :: rest) -> (y <= q_max x rest)%Q.
Proof.
  intros x rest. unfold q_max, py_max. revert x.
  induction rest as [|r rs IH]; intros x y Hy; simpl.
  - destruct Hy as [<-|[]]. apply Qle_refl.
  - destruct (Qlt_bool x r) eqn:E.
    + apply Qlt_bool_iff in E. destruct Hy as [<-|Hy].
      * apply Qle_trans with r; [apply Qlt_le_weak, E|apply IH; left; reflexivity].
      * apply IH. exact Hy.
    + apply Qlt_bool_false in E. destruct Hy as [<-|[<-|Hy]].
      * apply IH. left. reflexivity.
      * apply Qle_trans with x; [exact E|apply IH; left; reflexivity].
      * apply IH. right. exact Hy.
Qed.

Lemma last_sorted_max : forall sz0 szs,
  (last_q (sort_by Qlt_bool (sz0 :: szs)) == q_max sz0 szs)%Q.
Proof.
  intros sz0 szs. unfold last_q.
  set (s := sort_by Qlt_bool (sz0 :: szs)).
  assert (Hp : Permutation s (sz0 :: szs)) by apply sort_by_perm.
  assert (Hss : StronglySorted Qle s).
  { apply Sorted_StronglySorted; [intros a b c; apply Qle_trans|apply sort_sizes_sorted]. }
  assert (Hne : s <> []).
  { intros E. rewrite E in Hp. apply Permutation_nil in Hp. discriminate. }
  apply Qle_antisym.
  - apply q_max_ge. apply (Permutation_in _ Hp). apply last_in, Hne.
  - apply strongly_sorted_last; [exact Hss|].
    apply (Permutation_in _ (Permutation_sym Hp)).
    apply (py_max_in (fun a b => Qlt_bool b a)).
Qed.

Lemma fold_left_Qplus : forall l a,
  (fold_left Qplus l a == a + fold_right Qplus 0 l)%Q.
Proof.
  induction l as [|x l IH]; intros a; simpl.
  - rewrite Qplus_0_r. reflexivity.
  - rewrite IH. rewrite Qplus_assoc. reflexivity.
Qed.

Lemma sort_sizes_length : forall sz0 szs,
  List.length (sort_by Qlt_bool (sz0 :: szs)) = S (List.length szs).
Proof. intros sz0 szs. rewrite (Permutation_length (sort_by_perm _ _)). reflexivity. Qed.

(** C8: the statistics of [font_info]. [sorted_sizes] is the font sizes in
    ascending order; the average is their sum over [n]; the median is
    [sorted_sizes[n // 2]] (for an even count the upper of the two middle
    values); p75 is [sorted_sizes[floor(3n/4)]] from 5 sizes on; p75, p90
    and p95 are the largest size below 5, 11 and 21 sizes respectively. *)
Theorem font_stats_spec : forall sz0 szs,
  let sizes := sz0 :: szs in
  let n := S (List.length szs) in
  let sorted := sort_by Qlt_bool sizes in
  let fi := font_stats sz0 szs in
  Permutation sorted sizes /\ Sorted Qle sorted
  /\ In (q_max sz0 szs) sizes /\ (forall y, In y sizes -> (y <= q_max sz0 szs)%Q)
  /\ ((n < 5)%nat -> (fi_p75 fi == q_max sz0 szs)%Q)
  /\ ((5 <= n)%nat -> fi_p75 fi = nth_q sorted (3 * n / 4))
  /\ ((n < 11)%nat -> (fi_p90 fi == q_max sz0 szs)%Q)
  /\ ((n < 21)%nat -> (fi_p95 fi == q_max sz0 szs)%Q)
  /\ (fi_average fi == fold_right Qplus 0 sizes / inject_Z (Z.of_nat n))%Q
  /\ fi_median fi = nth_q sorted (n / 2).
Proof.
  intros sz0 szs sizes n sorted fi.
  assert (Hl : List.length sorted = n) by apply sort_sizes_length.
  assert (Hm := last_sorted_max sz0 szs).
  unfold fi, font_stats. fold sizes sorted. rewrite Hl. cbn [fi_p75 fi_p90 fi_p95 fi_average fi_median].
  split; [apply sort_by_perm|]. split; [apply sort_sizes_sorted|].
  split; [apply (py_max_in (fun a b => Qlt_bool b a))|]. split; [apply q_max_ge|].
  split; [intros H; replace (Nat.ltb 4 n) with false by (symmetry; apply Nat.ltb_ge; lia); exact Hm|].
  split; [intros H; replace (Nat.ltb 4 n) with true by (symmetry; apply Nat.ltb_lt; lia); reflexivity|].
  split; [intros H; replace (Nat.ltb 10 n) with false by (symmetry; apply Nat.ltb_ge; lia); exact Hm|].
  split; [intros H; replace (Nat.ltb 20 n) with false by (symmetry; apply Nat.ltb_ge; lia); exact Hm|].
  split; [|reflexivity].
  rewrite fold_left_Qplus, Qplus_0_l. reflexivity.
Qed.

End FontStats.

(** ** Script detection *)

Section ScriptFacts.
Context {U : UnicodeDB}.


Lemma bump_not_nil : forall k cs, bump k cs <> [].
Proof. intros k [|[k' n] cs]; simpl; [discriminate|]. destruct (script_eqb k k'); discriminate. Qed.

Lemma script_eqb_refl : forall k, script_eqb k k = true.
Proof. intros []; reflexivity. Qed.

Lemma script_counts_nil : forall text acc,
  fold_left count_step text acc = [] ->
  acc = [] /\ forall c, In c text -> script_ignored c = true.
Proof.
  intros text; induction text as [|c text IH]; intros acc H; simpl in H.
  - split; [exact H|intros c' []].
  - apply IH in H as [H1 H2]. unfold count_step in H1.
    destruct (script_ignored c) eqn:Ei.
    + split; [exact H1|]. intros c' [<-|Hc]; auto.
    + exfalso. apply (bump_not_nil _ _ H1).
Qed.

Lemma script_counts_single : forall k text acc,
  (forall c, In c text -> script_ignored c = false -> char_script c = k) ->
  (acc = [] \/ exists m, acc = [(k, m)]) ->
  fold_left count_step text acc = [] \/ exists m, fold_left count_step text acc = [(k, m)].
Proof.
  intros k text; induction text as [|c text IH]; intros acc Hall Hacc; simpl; [exact Hacc|].
  apply IH; [intros c' Hc'; apply Hall; right; exact Hc'|].
  unfold count_step. destruct (script_ignored c) eqn:Ei; [exact Hacc|].
  rewrite (Hall c (or_introl eq_refl) Ei). right.
  destruct Hacc as [->|[m ->]]; simpl.
  - exists 1%nat. reflexivity.
  - rewrite script_eqb_refl. exists (S m). reflexivity.
Qed.

Lemma char_script_of_name : forall c w,
  ud_name_word c = Some w ->
  existsb (str_contains w) ["LATIN"; "LETTER"]%string = false ->
  (w = "CYRILLIC"%string -> char_script c = SCyrillic)
  /\ (w = "ARABIC"%string -> char_script c = SArabic)
  /\ (In w ["CJK"; "HIRAGANA"; "KATAKANA"; "HANGUL"]%string -> char_script c = SCjk).
Proof.
  intros c w Hw Hl. unfold char_script. rewrite Hw, Hl.
  split; [intros ->; reflexivity|]. split; [intros ->; reflexivity|].
  intros [<-|[<-|[<-|[<-|[]]]]]; reflexivity.
Qed.

Lemma script_counts_step : forall t, script_counts t = fold_left count_step t [].
Proof. reflexivity. Qed.

Lemma script_eqb_eq : forall a b, script_eqb a b = true <-> a = b.
Proof. intros [] []; simpl; split; intros H; congruence. Qed.

Lemma script_eq_dec : forall a b : Script, {a = b} + {a <> b}.
Proof. decide equality. Defined.

Lemma bump_keys_in : forall j L, In j (map fst L) -> map fst (bump j L) = map fst L.
Proof.
  intros j L; induction L as [|[k' m] L IH]; simpl; intros H; [destruct H|].
  destruct (script_eqb j k') eqn:E; simpl; [reflexivity|].
  rewrite IH; [reflexivity|]. destruct H as [H|H]; [|exact H].
  subst. rewrite script_eqb_refl in E. discriminate.
Qed.

Lemma bump_keys_notin : forall j L, ~ In j (map fst L) -> map fst (bump j L) = map fst L ++ [j].
Proof.
  intros j L; induction L as [|[k' m] L IH]; simpl; intros H; [reflexivity|].
  destruct (script_eqb j k') eqn:E.
  - apply script_eqb_eq in E. subst. exfalso. apply H. left. reflexivity.
  - simpl. rewrite IH; [reflexivity|]. intros H'. apply H. right. exact H'.
Qed.

Lemma bump_entry : forall j L k n, NoDup (map fst L) -> In (k, n) (bump j L) ->
  (k <> j /\ In (k, n) L)
  \/ (k = j /\ ((exists m, In (j, m) L /\ n = S m) \/ (~ In j (map fst L) /\ n = 1%nat))).
Proof.
  intros j L; induction L as [|[k' m] L IH]; intros k n Hnd H; simpl in H.
  - destruct H as [H|[]]. inversion H; subst. right. split; [reflexivity|].
    right. split; [intros []|reflexivity].
  - simpl in Hnd. inversion Hnd as [|? ? Hni Hnd']; subst.
    destruct (script_eqb j k') eqn:E.
    + apply script_eqb_eq in E. subst k'.
      destruct H as [H|H].
      * inversion H; subst. right. split; [reflexivity|].
        left. exists m. split; [left; reflexivity|reflexivity].
      * left. split; [|right; exact H].
        intros ->. apply Hni. exact (in_map fst _ _ H).
    + destruct H as [H|H].
      * inversion H; subst. left. split; [|left; reflexivity].
        intros ->. rewrite script_eqb_refl in E. discriminate.
      * destruct (IH k n Hnd' H) as [[Hk Hin]|[Hk [[m' [Hin Hn]]|[Hni' Hn]]]].
        -- left. split; [exact Hk|right; exact Hin].
        -- right. split; [exact Hk|]. left. exists m'. split; [right; exact Hin|exact Hn].
        -- right. split; [exact Hk|]. right. split; [|exact Hn].
           simpl. intros [Hj|Hj]; [|exact (Hni' Hj)].
           subst. rewrite script_eqb_refl in E. discriminate.
Qed.

Lemma script_count_snoc : forall k t c,
  script_count k (t ++ [c]) = (script_count k t + if counted_as k c then 1 else 0)%nat.
Proof.
  intros k t c. unfold script_count. rewrite filter_app, length_app. simpl.
  destruct (counted_as k c); reflexivity.
Qed.

Lemma script_count_pos : forall k t,
  (0 < script_count k t)%nat <-> exists c, In c t /\ counted_as k c = true.
Proof.
  intros k t. unfold script_count. split.
  - intros H. destruct (filter (counted_as k) t) as [|c l] eqn:E; [simpl in H; lia|].
    exists c. apply filter_In. rewrite E. left. reflexivity.
  - intros [c Hc]. apply filter_In in Hc.
    destruct (filter (counted_as k) t) as [|c' l]; [destruct Hc|simpl; lia].
Qed.

Lemma app_snoc_split : forall {A : Type} (t pre post : list A) c c',
  t ++ [c] = pre ++ c' :: post ->
  (pre = t /\ c' = c /\ post = []) \/ (exists post', t = pre ++ c' :: post' /\ post = post' ++ [c]).
Proof.
  intros A t pre post c c' H. destruct post as [|p0 post0].
  - apply app_inj_tail in H as [H1 H2]. left. auto.
  - destruct (@exists_last _ (p0 :: post0) ltac:(discriminate)) as [post' [p Hp]].
    rewrite Hp in H |- *. rewrite app_comm_cons, app_assoc in H.
    apply app_inj_tail in H as [H1 H2]. subst. right. exists post'. auto.
Qed.

(** The counting loop of [_get_script_type]: each class is a key once, with
    its count; the counted classes are the keys; and a key comes before
    another only if the first character counted for it comes first. *)
Lemma script_counts_inv : forall t,
  let L := fold_left count_step t [] in
  NoDup (map fst L)
  /\ (forall k n, In (k, n) L -> n = script_count k t)
  /\ (forall k, In k (map fst L) <-> (0 < script_count k t)%nat)
  /\ (forall K1 k K2 k', map fst L = K1 ++ k :: K2 -> In k' K2 ->
        forall pre c' post, t = pre ++ c' :: post -> counted_as k' c' = true ->
        exists c, In c pre /\ counted_as k c = true).
Proof.
  intros t. induction t as [|c t IH] using rev_ind; simpl.
  - split; [constructor|]. split; [intros k n []|]. split.
    + intros k. split; [intros []|unfold script_count; simpl; lia].
    + intros K1 k K2 k' H. destruct K1; discriminate.
  - rewrite fold_left_app. simpl.
    destruct IH as [Hnd [Hcnt [Hkey Hord]]].
    set (L := fold_left count_step t []) in *.
    unfold count_step.
    destruct (script_ignored c) eqn:Ei.
    + assert (Hsc : forall k, script_count k (t ++ [c]) = script_count k t).
      { intros k. rewrite script_count_snoc. unfold counted_as. rewrite Ei. simpl. lia. }
      split; [exact Hnd|]. split; [intros k n H; rewrite Hsc; apply Hcnt, H|]. split.
      * intros k. rewrite Hsc. apply Hkey.
      * intros K1 k K2 k' HK Hk' pre c' post Ht Hc'.
        destruct (app_snoc_split _ _ _ _ _ Ht) as [[-> [-> ->]]|[post' [Ht' ->]]].
        -- unfold counted_as in Hc'. rewrite Ei in Hc'. discriminate.
        -- exact (Hord K1 k K2 k' HK Hk' pre c' post' Ht' Hc').
    + set (j := char_script c).
      assert (Hcc : forall k, counted_as k c = script_eqb j k).
      { intros k. unfold counted_as. rewrite Ei. reflexivity. }
      assert (Hsc : forall k, script_count k (t ++ [c])
                              = (script_count k t + if script_eqb j k then 1 else 0)%nat).
      { intros k. rewrite script_count_snoc, Hcc. reflexivity. }
      assert (Hkeys : map fst (bump j L) = map fst L
                      \/ (~ In j (map fst L) /\ map fst (bump j L) = map fst L ++ [j])).
      { destruct (in_dec script_eq_dec j (map fst L)) as [Hj|Hj].
        - left. apply bump_keys_in, Hj.
        - right. split; [exact Hj|]. apply bump_keys_notin, Hj. }
      assert (Hsub : forall k, In k (map fst (bump j L)) -> k <> j -> In k (map fst L)).
      { intros k Hk Hkj. destruct Hkeys as [E|[_ E]]; rewrite E in Hk; [exact Hk|].
        apply in_app_iff in Hk as [Hk|[Hk|[]]]; [exact Hk|congruence]. }
      assert (Hnd' : NoDup (map fst (bump j L))).
      { destruct Hkeys as [E|[Hj E]]; rewrite E; [exact Hnd|].
        apply Permutation_NoDup with (j :: map fst L); [apply Permutation_cons_append|].
        constructor; assumption. }
      split; [exact Hnd'|]. split; [|split].
      * intros k n H. rewrite Hsc.
        destruct (bump_entry j L k n Hnd H) as [[Hk Hin]|[-> [[m [Hin Hn]]|[Hni Hn]]]].
        -- rewrite (Hcnt k n Hin).
           destruct (script_eqb j k) eqn:E; [apply script_eqb_eq in E; congruence|]. lia.
        -- rewrite script_eqb_refl, Hn, (Hcnt j m Hin). lia.
        -- rewrite script_eqb_refl, Hn.
           assert (script_count j t = 0%nat); [|lia].
           destruct (script_count j t) eqn:E; [reflexivity|].
           exfalso. apply Hni, Hkey. lia.
      * intros k. rewrite Hsc. destruct (script_eqb j k) eqn:E.
        -- apply script_eqb_eq in E. rewrite <- E. split; [lia|]. intros _.
           destruct Hkeys as [E'|[Hj E']]; rewrite E'.
           ++ apply Hkey. destruct (in_dec script_eq_dec j (map fst L)) as [Hj|Hj].
              ** apply Hkey, Hj.
              ** rewrite <- E' in Hj. exfalso. apply Hj. rewrite bump_keys_notin by (rewrite <- E'; exact Hj).
                 apply in_or_app. right. left. reflexivity.
           ++ apply in_or_app. right. left. reflexivity.
        -- rewrite Nat.add_0_r, <- Hkey. split.
           ++ intros Hk. apply Hsub; [exact Hk|]. intros ->. rewrite script_eqb_refl in E. discriminate.
           ++ intros Hk. destruct Hkeys as [E'|[_ E']]; rewrite E'; [exact Hk|].
              apply in_or_app. left. exact Hk.
      * intros K1 k K2 k' HK Hk' pre c' post Ht Hc'.
        assert (Hkk : k <> k').
        { intros ->. rewrite HK in Hnd'. apply (NoDup_remove_2 _ _ _ Hnd').
          apply in_or_app. right. exact Hk'. }
        destruct (app_snoc_split _ _ _ _ _ Ht) as [[-> [-> ->]]|[post' [Ht' ->]]].
        -- rewrite Hcc in Hc'. apply script_eqb_eq in Hc'. subst k'.
           assert (Hk : In k (map fst L)).
           { apply Hsub; [|exact Hkk]. rewrite HK. apply in_or_app. right. left. reflexivity. }
           apply Hkey, script_count_pos in Hk. exact Hk.
        -- destruct Hkeys as [E|[Hj E]]; rewrite E in HK.
           ++ exact (Hord K1 k K2 k' HK Hk' pre c' post' Ht' Hc').
           ++ destruct K2 as [|x0 K20]; [destruct Hk'|].
              destruct (@exists_last _ (x0 :: K20) ltac:(discriminate)) as [K2' [x Hx]].
              rewrite Hx in HK, Hk'. rewrite app_comm_cons, app_assoc in HK.
              apply app_inj_tail in HK as [HK Hxj]. subst x.
              apply in_app_iff in Hk' as [Hk'|[Hk'|[]]].
              ** exact (Hord K1 k K2' k' HK Hk' pre c' post' Ht' Hc').
              ** subst k'. exfalso. apply Hj, Hkey, script_count_pos.
                 exists c'. split; [rewrite Ht'; apply in_or_app; right; left; reflexivity|exact Hc'].
Qed.

(** [max(script_counts.items(), key=lambda x: x[1])]: the first entry with
    the largest count. *)
Lemma py_max_count_ge : forall (rest : list (Script * nat)) best,
  let r := py_max (fun x y => Nat.ltb (snd y) (snd x)) best rest in
  (snd best <= snd r)%nat /\ forall y, In y rest -> (snd y <= snd r)%nat.
Proof.
  unfold py_max. induction rest as [|y rs IH]; intros best; simpl.
  - split; [lia|intros y []].
  - destruct (Nat.ltb (snd best) (snd y)) eqn:E.
    + apply Nat.ltb_lt in E. destruct (IH y) as [H1 H2].
      split; [lia|]. intros y' [<-|Hy]; [exact H1|apply H2, Hy].
    + apply Nat.ltb_ge in E. destruct (IH best) as [H1 H2].
      split; [exact H1|]. intros y' [<-|Hy]; [lia|apply H2, Hy].
Qed.

Lemma py_max_count_split : forall (rest : list (Script * nat)) best pre mid,
  (forall y, In y pre -> (snd y < snd best)%nat) ->
  (forall y, In y mid -> (snd y <= snd best)%nat) ->
  let r := py_max (fun x y => Nat.ltb (snd y) (snd x)) best rest in
  exists L1 L2, pre ++ best :: mid ++ rest = L1 ++ r :: L2
    /\ forall y, In y L1 -> (snd y < snd r)%nat.
Proof.
  unfold py_max. induction rest as [|y rs IH]; intros best pre mid Hpre Hmid; simpl.
  - exists pre, mid. rewrite app_nil_r. auto.
  - destruct (Nat.ltb (snd best) (snd y)) eqn:E.
    + apply Nat.ltb_lt in E.
      destruct (IH y (pre ++ best :: mid) [] ) as [L1 [L2 [Heq Hlt]]].
      * intros y' Hy'. apply in_app_iff in Hy' as [Hy'|[<-|Hy']];
          [specialize (Hpre y' Hy')|idtac|specialize (Hmid y' Hy')]; lia.
      * intros y' [].
      * exists L1, L2. split; [|exact Hlt]. rewrite <- Heq. simpl.
        rewrite <- app_assoc. reflexivity.
    + apply Nat.ltb_ge in E.
      destruct (IH best pre (mid ++ [y]) Hpre) as [L1 [L2 [Heq Hlt]]].
      * intros y' Hy'. apply in_app_iff in Hy' as [Hy'|[<-|[]]]; [apply Hmid, Hy'|lia].
      * exists L1, L2. split; [|exact Hlt]. rewrite <- Heq. rewrite <- app_assoc. reflexivity.
Qed.

(** The winner of the vote, as an entry of the counts. *)
Lemma get_script_type_winner : forall t,
  (exists c, In c t /\ script_ignored c = false) ->
  exists L1 n L2, fold_left count_step t [] = L1 ++ (get_script_type t, n) :: L2
    /\ (forall y, In y L1 -> (snd y < n)%nat)
    /\ (forall y, In y (fold_left count_step t []) -> (snd y <= n)%nat).
Proof.
  intros t [c [Hc Hi]].
  destruct t as [|c0 t0]; [destruct Hc|].
  unfold get_script_type. rewrite script_counts_step.
  destruct (fold_left count_step (c0 :: t0) []) as [|kv rest] eqn:EL.
  - apply script_counts_nil in EL as [_ EL]. rewrite (EL c Hc) in Hi. discriminate.
  - destruct (py_max_count_split rest kv [] [] (fun y H => match H with end)
                (fun y H => match H with end)) as [L1 [L2 [Heq Hlt]]].
    destruct (py_max_count_ge rest kv) as [Hge1 Hge2].
    set (r := py_max (fun x y => Nat.ltb (snd y) (snd x)) kv rest) in *.
    exists L1, (snd r), L2. split; [|split].
    + rewrite <- surjective_pairing. exact Heq.
    + exact Hlt.
    + intros y [<-|Hy]; [exact Hge1|apply Hge2, Hy].
Qed.

Lemma script_counts_skip : forall t acc,
  (forall c, In c t -> script_ignored c = true) -> fold_left count_step t acc = acc.
Proof.
  intros t; induction t as [|c t IH]; intros acc Hall; simpl; [reflexivity|].
  unfold count_step at 2. rewrite (Hall c (or_introl eq_refl)).
  apply IH. intros c' Hc'. apply Hall. right. exact Hc'.
Qed.

(** C7 (as the code has it): only whitespace, digits and the marks
    [.,;:!?-()[]{}] are skipped; every other character is classified by
    the first word of its Unicode name.  The empty text is ["unknown"]; a
    non-empty text all of whose characters are skipped is ["latin"]; when
    every counted character falls in one class and at least one is counted,
    that class wins; names starting with [CYRILLIC], [ARABIC], or [CJK],
    [HIRAGANA], [KATAKANA], [HANGUL] give the Cyrillic, Arabic and CJK classes. *)
Theorem get_script_type_spec : forall t : list Z,
  (t = [] -> get_script_type t = SUnknown)
  /\ (t <> [] -> (forall c, In c t -> script_ignored c = true) -> get_script_type t = SLatin)
  /\ (forall k, (forall c, In c t -> script_ignored c = false -> char_script c = k) ->
       (exists c, In c t /\ script_ignored c = false) -> get_script_type t = k)
  /\ (forall c, ud_name_word c = Some "CYRILLIC"%string -> char_script c = SCyrillic)
  /\ (forall c, ud_name_word c = Some "ARABIC"%string -> char_script c = SArabic)
  /\ (forall c w, ud_name_word c = Some w ->
        In w ["CJK"; "HIRAGANA"; "KATAKANA"; "HANGUL"]%string -> char_script c = SCjk)
  /\ ((exists c, In c t /\ script_ignored c = false) ->
      (forall k', (script_count k' t <= script_count (get_script_type t) t)%nat)
      /\ (forall k' pre c' post, k' <> get_script_type t ->
            script_count k' t = script_count (get_script_type t) t ->
            t = pre ++ c' :: post -> counted_as k' c' = true ->
            exists c, In c pre /\ counted_as (get_script_type t) c = true)).
Proof.
  intros t. split; [|split; [|split; [|split; [|split; [|split]]]]].
  - intros ->. reflexivity.
  - intros Hne Hall. unfold get_script_type.
    destruct t as [|c0 t']; [congruence|].
    rewrite script_counts_step, (script_counts_skip _ _ Hall). reflexivity.
  - intros k Hall [c [Hc Hi]]. unfold get_script_type.
    destruct t as [|c0 t']; [destruct Hc|].
    rewrite script_counts_step.
    destruct (script_counts_single k (c0 :: t') [] Hall (or_introl eq_refl)) as [E|[m E]].
    + apply script_counts_nil in E as [_ E]. rewrite (E c Hc) in Hi. discriminate.
    + rewrite E. reflexivity.
  - intros c Hc. apply (char_script_of_name c _ Hc); reflexivity.
  - intros c Hc. apply (char_script_of_name c _ Hc); reflexivity.
  - intros c w Hc Hw. apply (char_script_of_name c w Hc); [|exact Hw].
    destruct Hw as [<-|[<-|[<-|[<-|[]]]]]; reflexivity.
  - intros Hex.
    destruct (get_script_type_winner t Hex) as [L1 [n [L2 [HL [Hlt Hle]]]]].
    destruct (script_counts_inv t) as [Hnd [Hcnt [Hkey Hord]]].
    set (k := get_script_type t) in *.
    set (L := fold_left count_step t []) in *.
    assert (Hk : n = script_count k t).
    { apply Hcnt. rewrite HL. apply in_or_app. right. left. reflexivity. }
    assert (Hentry : forall k', (0 < script_count k' t)%nat -> In (k', script_count k' t) L).
    { intros k' Hpos. apply Hkey, in_map_iff in Hpos as [[k'' n'] [Heq Hin]]. simpl in Heq.
      subst k''. rewrite <- (Hcnt k' n' Hin). exact Hin. }
    split.
    + intros k'. destruct (script_count k' t) as [|m] eqn:E; [lia|].
      rewrite <- Hk. rewrite <- E. apply (Hle (k', script_count k' t)), Hentry. lia.
    + intros k' pre c' post Hne Heq Ht Hc'.
      assert (Hpos : (0 < script_count k' t)%nat).
      { apply script_count_pos. exists c'. split; [rewrite Ht; apply in_or_app; right; left; reflexivity|exact Hc']. }
      pose proof (Hentry k' Hpos) as Hin. rewrite HL in Hin.
      apply in_app_iff in Hin as [Hin|[Hin|Hin]].
      * apply Hlt in Hin. simpl in Hin. lia.
      * inversion Hin. congruence.
      * refine (Hord (map fst L1) k (map fst L2) k' _ (in_map fst _ _ Hin) pre c' post Ht Hc').
        rewrite HL, map_app. reflexivity.
Qed.

End ScriptFacts.

(** ** Title cleaning *)

Section TitleFacts.
Context {U : UnicodeDB}.

(** C2 (as the code has it): after [strip], NFC and whitespace collapsing,
    a CJK title longer than 100 characters is cut to 100 characters plus
    ["..."], so it has at most 103; any other title is cut only when it is
    longer than 200 characters and has more than 30 words, to its first 30
    words joined by spaces plus ["..."], and is otherwise returned whole. *)
Theorem clean_title_bounds : forall title language,
  let t := collapse_ws (ud_nfc (strip title)) in
  (get_script_type t = SCjk -> (List.length (clean_title title language) <= 103)%nat)
  /\ (get_script_type t = SCjk -> (List.length t <= 100)%nat -> clean_title title language = t)
  /\ (get_script_type t <> SCjk ->
        (List.length t <= 200)%nat \/ (List.length (split t) <= 30)%nat ->
        clean_title title language = t)
  /\ (get_script_type t <> SCjk -> (200 < List.length t)%nat -> (30 < List.length (split t))%nat ->
        clean_title title language = join [32] (firstn 30 (split t)) ++ u8 "...")
  /\ (get_script_type t = SCjk -> (100 < List.length t)%nat ->
        clean_title title language = firstn 100 t ++ u8 "...").
Proof.
  intros title language t. unfold clean_title. fold t.
  split; [|split; [|split; [|split]]].
  - intros ->. destruct (Nat.ltb 100 (List.length t)) eqn:E.
    + rewrite length_app, length_firstn. change (List.length (u8 "...")) with 3%nat. lia.
    + apply Nat.ltb_ge in E. lia.
  - intros -> H. replace (Nat.ltb 100 (List.length t)) with false by (symmetry; apply Nat.ltb_ge; exact H).
    reflexivity.
  - intros Hs H.
    assert (E : match get_script_type t with
                | SCjk => if Nat.ltb 100 (List.length t) then firstn 100 t ++ u8 "..." else t
                | _ => if Nat.ltb 200 (List.length t) then
                         if Nat.ltb 30 (List.length (split t)) then join [32] (firstn 30 (split t)) ++ u8 "..." else t
                       else t
                end
              = if Nat.ltb 200 (List.length t) then
                  if Nat.ltb 30 (List.length (split t)) then join [32] (firstn 30 (split t)) ++ u8 "..." else t
                else t)
      by (destruct (get_script_type t); congruence).
    rewrite E. destruct H as [H|H].
    + replace (Nat.ltb 200 (List.length t)) with false by (symmetry; apply Nat.ltb_ge; exact H). reflexivity.
    + replace (Nat.ltb 30 (List.length (split t))) with false by (symmetry; apply Nat.ltb_ge; exact H).
      destruct (Nat.ltb 200 _); reflexivity.
  - intros Hs H1 H2.
    replace (Nat.ltb 200 (List.length t)) with true by (symmetry; apply Nat.ltb_lt; exact H1).
    replace (Nat.ltb 30 (List.length (split t))) with true by (symmetry; apply Nat.ltb_lt; exact H2).
    destruct (get_script_type t); congruence.
  - intros -> H.
    replace (Nat.ltb 100 (List.length t)) with true by (symmetry; apply Nat.ltb_lt; exact H).
    reflexivity.
Qed.

End TitleFacts.

(** ** Error handling of [extract_structure] and [process_all_pdfs] *)

Section ErrorFacts.
Context {U : UnicodeDB}.

(** Only an exception outside [Exception] leaves a [try ... except Exception]
    whose handler returns. *)
Lemma try_except_total : forall {A} (m : Exc A) h,
  (forall e, exists r, h e = Ok r) ->
  (exists r, try_except m h = Ok r) \/ (exists e, try_except m h = Raise e /\ exc_is_Exception e = false).
Proof.
  intros A m h Hh. destruct m as [a|e]; simpl.
  - left. exists a. reflexivity.
  - destruct (exc_is_Exception e) eqn:E.
    + left. apply Hh.
    + right. exists e. auto.
Qed.

Lemma extract_structure_total : forall opened,
  (exists r, extract_structure opened = Ok r)
  \/ (exists e, extract_structure opened = Raise e /\ exc_is_Exception e = false).
Proof. intros opened. apply try_except_total. intros _. eexists. reflexivity. Qed.

Lemma save_output_total : forall write,
  save_output write = Ok tt \/ (exists e, save_output write = Raise e /\ exc_is_Exception e = false).
Proof.
  intros write. destruct (try_except_total write (fun _ => Ok tt) (fun _ => ex_intro _ tt eq_refl))
    as [[[] H]|H]; [left; exact H|right; exact H].
Qed.

(** What one iteration of the loop can end in. *)
Lemma process_file_cases : forall con f n,
  (exists n', process_file con f n = (n', Ok true))
  \/ (exists n' e0, process_file con f n = (n', Ok false) /\ exc_is_Exception e0 = true
        /\ (con_print con n (MsgProcessing (pdf_name f)) = Raise e0
            \/ (con_print con n (MsgProcessing (pdf_name f)) = Ok tt
                /\ con_print con (S n) (MsgCompleted (pdf_name f)) = Raise e0)))
  \/ (exists n' e, process_file con f n = (n', Raise e)
        /\ (exc_is_Exception e = false
            \/ exists k e0, con_print con k (MsgFailed (pdf_name f) e0) = Raise e)).
Proof.
  intros con f n.
  unfold process_file, io_try, io_handle, io_bind, io_print, io_lift, io_ret, io_raise.
  destruct (con_print con n (MsgProcessing (pdf_name f))) as [[]|e] eqn:Ep.
  - destruct (extract_structure_total (pdf_open f)) as [[r Hr]|[e [He Hne]]]; rewrite ?Hr, ?He.
    + destruct (save_output_total (pdf_write f)) as [Hw|[e [Hw Hne]]]; rewrite Hw.
      * destruct (con_print con (S n) (MsgCompleted (pdf_name f))) as [[]|e] eqn:Ec.
        -- left. eexists. reflexivity.
        -- destruct (exc_is_Exception e) eqn:Ee.
           ++ destruct (con_print con (S (S n)) (MsgFailed (pdf_name f) e)) as [[]|e''] eqn:Ef.
              ** right; left. exists (S (S (S n))), e. auto.
              ** right; right. exists (S (S (S n))), e''. split; [reflexivity|]. right. eauto.
           ++ right; right. exists (S (S n)), e. auto.
      * rewrite Hne. right; right. exists (S n), e. auto.
    + rewrite Hne. right; right. exists (S n), e. auto.
  - destruct (exc_is_Exception e) eqn:Ee.
    + destruct (con_print con (S n) (MsgFailed (pdf_name f) e)) as [[]|e''] eqn:Ef.
      * right; left. exists (S (S n)), e. auto.
      * right; right. exists (S (S n)), e''. split; [reflexivity|]. right. eauto.
    + right; right. exists (S n), e. auto.
Qed.

(** What the loop can end in. *)
Lemma process_all_pdfs_cases : forall con files n,
  (exists n' tr, process_all_pdfs con files n = (n', Ok tr) /\ map fst tr = map pdf_name files)
  \/ (exists n' e, process_all_pdfs con files n = (n', Raise e)
        /\ (exc_is_Exception e = false
            \/ exists f k e0, In f files /\ con_print con k (MsgFailed (pdf_name f) e0) = Raise e)).
Proof.
  intros con files. induction files as [|f fs IH]; intros n; simpl.
  - left. exists n, []. auto.
  - unfold io_bind, io_ret.
    assert (Hf : (exists n' ok, process_file con f n = (n', Ok ok))
                 \/ exists n' e, process_file con f n = (n', Raise e)
                      /\ (exc_is_Exception e = false
                          \/ exists k e0, con_print con k (MsgFailed (pdf_name f) e0) = Raise e)).
    { destruct (process_file_cases con f n) as [[n' H]|[[n' [e0 [H _]]]|H]]; eauto. }
    destruct Hf as [[n' [ok Hok]]|[n' [e [He Hwhy]]]]; rewrite ?Hok, ?He; cbv beta iota.
    + destruct (IH n') as [[n'' [tr [Htr Hn]]]|[n'' [e [He Hwhy]]]];
        rewrite ?Htr, ?He; cbv beta iota.
      * left. exists n'', ((pdf_name f, ok) :: tr). simpl. rewrite Hn. auto.
      * right. exists n'', e. split; [reflexivity|].
        destruct Hwhy as [Hne|[g [k [e0 [Hg Hp]]]]]; [left; exact Hne|].
        right. exists g, k, e0. simpl. auto.
    + right. exists n', e. split; [reflexivity|].
      destruct Hwhy as [Hne|[k [e0 Hp]]]; [left; exact Hne|].
      right. exists f, k, e0. simpl. auto.
Qed.

(** With a console that never fails, the loop handles every file unless an
    exception outside [Exception] escapes. *)
Lemma process_all_pdfs_quiet : forall con,
  (forall k msg, con_print con k msg = Ok tt) ->
  forall files n,
  (exists n' tr, process_all_pdfs con files n = (n', Ok tr) /\ map fst tr = map pdf_name files)
  \/ (exists n' e, process_all_pdfs con files n = (n', Raise e) /\ exc_is_Exception e = false).
Proof.
  intros con Hcon files n.
  destruct (process_all_pdfs_cases con files n) as [H|[n' [e [He [Hne|[g [k [e0 [_ Hp]]]]]]]]];
    [left; exact H|right; eauto|].
  rewrite Hcon in Hp. discriminate.
Qed.

(** C3 (as the code has it): a failure of [fitz.open] or of the processing
    that raises an [Exception], or a document without text blocks whose
    [close] raises none outside [Exception], gives [{"title": "", "outline": []}];
    [extract_structure] raises exactly the exceptions outside [Exception]
    ([KeyboardInterrupt], [SystemExit]) that the opening or the processing
    raises; such an exception leaves the batch loop too.  The loop goes on
    after any [Exception] in a file, unless the [print] of its ["✗ Failed"]
    line raises in turn; with a console that never fails, the batch handles
    every file in order unless an exception outside [Exception] escapes. *)
Theorem extract_structure_errors :
  (forall e, exc_is_Exception e = true -> extract_structure (Raise e) = Ok empty_result)
  /\ (forall doc e, extract_body doc = Raise e -> exc_is_Exception e = true ->
        extract_structure (Ok doc) = Ok empty_result)
  /\ (forall doc, get_text_blocks doc (Nat.min (List.length (doc_pages doc)) page_limit) = Ok [] ->
        (forall e, doc_close doc = Raise e -> exc_is_Exception e = true) ->
        extract_structure (Ok doc) = Ok empty_result)
  /\ (forall opened e, extract_structure opened = Raise e <->
        ((doc <- opened ;; extract_body doc) = Raise e /\ exc_is_Exception e = false))
  /\ (forall con f fs n e, con_print con n (MsgProcessing (pdf_name f)) = Ok tt ->
        extract_structure (pdf_open f) = Raise e ->
        process_all_pdfs con (f :: fs) n = (S n, Raise e))
  /\ (forall con files n,
        (exists n' tr, process_all_pdfs con files n = (n', Ok tr) /\ map fst tr = map pdf_name files)
        \/ (exists n' e, process_all_pdfs con files n = (n', Raise e)
              /\ (exc_is_Exception e = false
                  \/ exists f k e0, In f files /\ con_print con k (MsgFailed (pdf_name f) e0) = Raise e)))
  /\ (forall con, (forall k msg, con_print con k msg = Ok tt) ->
        forall files n,
        (exists n' tr, process_all_pdfs con files n = (n', Ok tr) /\ map fst tr = map pdf_name files)
        \/ (exists n' e, process_all_pdfs con files n = (n', Raise e) /\ exc_is_Exception e = false)).
Proof.
  split; [|split; [|split; [|split; [|split; [|split]]]]].
  - intros e He. unfold extract_structure. simpl. rewrite He. reflexivity.
  - intros doc e Hb He. unfold extract_structure. simpl. rewrite Hb. simpl. rewrite He. reflexivity.
  - intros doc Hg Hc. unfold extract_structure, extract_body. simpl. rewrite Hg. simpl.
    destruct (doc_close doc) as [[]|e] eqn:Ec; simpl; [reflexivity|].
    rewrite (Hc e eq_refl). reflexivity.
  - intros opened e. unfold extract_structure, try_except.
    destruct (doc <- opened ;; extract_body doc) as [r|e'].
    + split; [discriminate|intros [H _]; discriminate].
    + destruct (exc_is_Exception e') eqn:Ee.
      * split; [discriminate|intros [H He]; inversion H; subst; congruence].
      * split; [intros H; inversion H; subst; auto|intros [H _]; exact H].
  - intros con f fs n e Hp He. simpl.
    assert (Hne : exc_is_Exception e = false).
    { destruct (extract_structure_total (pdf_open f)) as [[r Hr]|[e' [He' Hne]]]; congruence. }
    unfold process_file, io_try, io_handle, io_bind, io_print, io_lift, io_raise.
    rewrite Hp, He, Hne. reflexivity.
  - exact process_all_pdfs_cases.
  - exact process_all_pdfs_quiet.
Qed.

End ErrorFacts.

(** ** Runs on the sample inputs, with CPython's character database *)

Section Runs.
Local Existing Instance PyDB.py_db.

(** C5 (as the code has it): [_definitely_not_heading] does not match
    ["Contact: info@example.com"] in any language (no administrative term,
    two words, 21 of its 25 characters alphanumeric), so its heading score is
    not forced to 0; only [_is_obviously_not_title] rejects it, as a title. *)
Theorem contact_line_not_filtered : forall language,
  definitely_not_heading contact_text language = false
  /\ obviously_not_title contact_text language = true.
Proof. intros language. split; vm_compute; reflexivity. Qed.

(** C5, refuted as stated: the contact line of the sample report passes the
    filter and is emitted as an H1 heading on page 0. *)
Lemma contact_line_in_outline :
  definitely_not_heading contact_text "english" = false
  /\ extract_structure (Ok report_doc)
     = Ok {| res_title := u8 "Annual Report 2024";
             res_outline := [{| out_level := H1; out_text := contact_text; out_page := 0 |}] |}.
Proof. split; vm_compute; reflexivity. Qed.

(** C2, refuted as stated: a CJK title of 101 characters is returned with
    103, and a non-CJK title of 201 characters in one word is returned whole. *)
Lemma clean_title_over_bounds :
  List.length (clean_title (repeat (uc "一") 101) "chinese") = 103%nat
  /\ List.length (clean_title (repeat 97 201) "english") = 201%nat.
Proof. split; vm_compute; reflexivity. Qed.

Lemma clean_title_bounds_witness :
  get_script_type (collapse_ws (ud_nfc (strip (repeat (uc "一") 101)))) = SCjk
  /\ (List.length (clean_title (repeat (uc "一") 101) "chinese") <= 103)%nat
  /\ clean_title (repeat (uc "一") 101) "chinese" = repeat (uc "一") 100 ++ u8 "...".
Proof.
  assert (H : get_script_type (collapse_ws (ud_nfc (strip (repeat (uc "一") 101)))) = SCjk)
    by (vm_compute; reflexivity).
  split; [exact H|]. split.
  - exact (proj1 (clean_title_bounds (repeat (uc "一") 101) "chinese") H).
  - rewrite (proj2 (proj2 (proj2 (proj2 (clean_title_bounds (repeat (uc "一") 101) "chinese")))) H)
      by (vm_compute; reflexivity).
    vm_compute. reflexivity.
Defined.

(** C3, refuted as stated: [KeyboardInterrupt] is not an [Exception]; it
    leaves [extract_structure] and stops the batch before the next file.  And
    on a console that cannot encode ["✓"] and ["✗"], the ["✓ Completed"]
    line of the first file raises, the ["✗ Failed"] line of its handler raises
    again, and the batch ends there: [main] exits with status 1 without
    handling the second file. *)
Lemma batch_stops_early :
  extract_structure (Raise keyboard_interrupt) = Raise keyboard_interrupt
  /\ process_all_pdfs quiet_console [interrupted_file; report_file] 0%nat = (1%nat, Raise keyboard_interrupt)
  /\ process_all_pdfs ascii_console [report_file; broken_file] 0%nat = (3%nat, Raise unicode_encode_error)
  /\ main ascii_console two_file_env 0%nat = (5%nat, Ok FatalExit).
Proof. repeat split; vm_compute; reflexivity. Qed.

Lemma extract_structure_errors_witness :
  extract_structure (pdf_open broken_file) = Ok empty_result
  /\ process_all_pdfs quiet_console [broken_file; report_file] 0%nat
     = (4%nat, Ok [("broken.pdf"%string, true); ("report.pdf"%string, true)]).
Proof.
  split.
  - apply (proj1 extract_structure_errors). reflexivity.
  - destruct (proj2 (proj2 (proj2 (proj2 (proj2 (proj2 extract_structure_errors)))))
                quiet_console (fun _ _ => eq_refl) [broken_file; report_file] 0%nat)
      as [_|[n' [e [He Hne]]]].
    + vm_compute. reflexivity.
    + vm_compute in He. discriminate.
Defined.


Lemma build_outline_title_overlap_witness :
  exists h, In h (outline_headings report_blocks (analyze_structure report_blocks "english")
                    (u8 "Annual Report 2024") "english")
    /\ contact_entry = format_heading h
    /\ (similarity (word_set (u8 "Annual Report 2024")) (word_set (text (fst h))) < 4 # 10)%Q.
Proof.
  apply (build_outline_title_overlap report_blocks (analyze_structure report_blocks "english")).
  - vm_compute. discriminate.
  - vm_compute. left. reflexivity.
Defined.

Lemma assign_levels_cascade_witness :
  In (contact_block, H1) (assign_levels report_blocks "english")
  /\ ((page contact_block <= 1)%nat /\ is_bold contact_block = true /\ (14 <= font_size contact_block)%Q ->
      H1 = H1).
Proof.
  assert (H : In (contact_block, H1) (assign_levels report_blocks "english")).
  { vm_compute. do 11 right. left. reflexivity. }
  split; [exact H|].
  exact (proj1 (assign_levels_cascade report_blocks "english" contact_block H1 H)).
Defined.

(** C7, refuted as stated: the guillemets are punctuation but are counted as
    "other", and outweigh the one Cyrillic letter; a text of guillemets
    alone, with no script evidence, is "other" and not "latin". *)
Lemma script_guillemets :
  get_script_type (u8 "«а»") = SOther /\ get_script_type (u8 "«»") = SOther.
Proof. split; vm_compute; reflexivity. Qed.

Lemma get_script_type_spec_witness :
  get_script_type (u8 "Привет, мир!") = SCyrillic
  /\ get_script_type (u8 "Бв Ab") = SCyrillic
  /\ (script_count SLatin (u8 "Бв Ab") <= script_count (get_script_type (u8 "Бв Ab")) (u8 "Бв Ab"))%nat
  /\ script_count SLatin (u8 "Бв Ab") = script_count SCyrillic (u8 "Бв Ab").
Proof.
  split; [|split; [vm_compute; reflexivity|split; [|vm_compute; reflexivity]]].
  2:{ assert (Hex : exists c, In c (u8 "Бв Ab") /\ script_ignored c = false)
        by (exists (uc "Б"); split; [vm_compute; left; reflexivity|vm_compute; reflexivity]).
      exact (proj1 (proj2 (proj2 (proj2 (proj2 (proj2 (proj2 (get_script_type_spec (u8 "Бв Ab"))))))) Hex)
               SLatin). }
  apply (proj1 (proj2 (proj2 (get_script_type_spec (u8 "Привет, мир!"))))).
  - intros c Hc Hi. vm_compute in Hc.
    repeat (destruct Hc as [<-|Hc]; [vm_compute in Hi |- *; first [reflexivity | discriminate] |]).
    destruct Hc.
  - exists (uc "П"). split; [vm_compute; left; reflexivity | vm_compute; reflexivity].
Defined.

(** C8, refuted as stated: for the sizes 10 and 12 the reported median is
    12, the upper middle value, not their mean 11. *)
Lemma font_stats_even_median : ~ (fi_median (font_stats 10 [12]%Q) == (10 + 12) / 2)%Q.
Proof. vm_compute. discriminate. Qed.

Lemma font_stats_spec_witness : (fi_p75 (font_stats 10 [12; 14]%Q) == q_max 10 [12; 14]%Q)%Q.
Proof.
  destruct (font_stats_spec 10 [12; 14]%Q) as (_ & _ & _ & _ & H75 & _).
  apply H75. simpl. lia.
Defined.

Lemma crowded_doc_pages_ok :
  forall i e, get_page crowded_doc i = Raise e -> exc_is_Exception e = true.
Proof.
  intros [|[|i]] e H; unfold get_page in H; simpl in H; [discriminate| |];
    inversion H; reflexivity.
Qed.

(** The crowded page is cut to exactly 1000 blocks. *)
Lemma crowded_doc_truncated :
  List.length (match get_text_blocks crowded_doc 1 with Ok bs => bs | Raise _ => [] end) = 1000%nat.
Proof. vm_compute. reflexivity. Qed.

Lemma get_text_blocks_capped_witness :
  (forall i e, get_page crowded_doc i = Raise e -> exc_is_Exception e = true)
  /\ exists bs, get_text_blocks crowded_doc 1 = Ok bs /\ (List.length bs <= memory_threshold)%nat.
Proof.
  split; [exact crowded_doc_pages_ok|].
  exact (get_text_blocks_capped crowded_doc 1 crowded_doc_pages_ok).
Defined.

Lemma extract_structure_page_cap_witness :
  List.length (doc_pages long_doc) = 60%nat
  /\ In (nth 66 (match get_text_blocks long_doc 60 with Ok bs => bs | Raise _ => [] end) empty_block)
        (match get_text_blocks long_doc 60 with Ok bs => bs | Raise _ => [] end)
  /\ page (nth 66 (match get_text_blocks long_doc 60 with Ok bs => bs | Raise _ => [] end) empty_block) = 55%nat
  /\ text (nth 66 (match get_text_blocks long_doc 60 with Ok bs => bs | Raise _ => [] end) empty_block)
     = appendix_text
  /\ page (last long_blocks empty_block) = 49%nat
  /\ (forall b, In b long_blocks -> (page b < page_limit)%nat)
  /\ (forall e, In e (res_outline long_result) -> (out_page e < page_limit)%nat)
  /\ ~ In appendix_text (map out_text (res_outline long_result)).
Proof.
  assert (Hb : get_text_blocks long_doc (Nat.min (List.length (doc_pages long_doc)) page_limit)
               = Ok long_blocks) by (vm_compute; reflexivity).
  assert (Hr : extract_structure (Ok long_doc) = Ok long_result) by (vm_compute; reflexivity).
  split; [vm_compute; reflexivity|].
  split; [apply nth_In; vm_compute; lia|].
  split; [vm_compute; reflexivity|].
  split; [vm_compute; reflexivity|].
  split; [vm_compute; reflexivity|].
  split; [exact (proj1 extract_structure_page_cap long_doc long_blocks Hb)|].
  split; [exact (proj2 extract_structure_page_cap (Ok long_doc) long_result Hr)|].
  vm_compute. intros [H|H]; [discriminate H|exact H].
Defined.

End Runs.

(** ** The batch driver and [main] *)

Section DriverFacts.
Context {U : UnicodeDB}.

(** An iteration of the loop of [process_all_pdfs] reports a file as failed
    (["✗ Failed"]) only when printing its ["Processing"] or its ["✓ Completed"]
    line raised an [Exception]: [extract_structure] and [save_output] catch
    every [Exception] themselves.  When both lines print, the file is reported
    completed, or an exception outside [Exception] leaves the loop. *)
Theorem process_file_failed_only_on_print : forall con f n,
  (snd (process_file con f n) = Ok false ->
     exists e, exc_is_Exception e = true
       /\ (con_print con n (MsgProcessing (pdf_name f)) = Raise e
           \/ con_print con (S n) (MsgCompleted (pdf_name f)) = Raise e))
  /\ (con_print con n (MsgProcessing (pdf_name f)) = Ok tt ->
      con_print con (S n) (MsgCompleted (pdf_name f)) = Ok tt ->
      process_file con f n = (S (S n), Ok true)
      \/ exists e, process_file con f n = (S n, Raise e) /\ exc_is_Exception e = false).
Proof.
  intros con f n. split.
  - intros Hf.
    destruct (process_file_cases con f n)
      as [[n' H]|[[n' [e0 [H [He0 Hwhy]]]]|[n' [e [H _]]]]]; rewrite H in Hf; simpl in Hf;
      try discriminate.
    exists e0. split; [exact He0|]. destruct Hwhy as [Hp|[_ Hc]]; auto.
  - intros Hp Hc.
    unfold process_file, io_try, io_handle, io_bind, io_print, io_lift, io_ret, io_raise.
    rewrite Hp.
    destruct (extract_structure_total (pdf_open f)) as [[r Hr]|[e [He Hne]]]; rewrite ?Hr, ?He.
    + destruct (save_output_total (pdf_write f)) as [Hw|[e [Hw Hne]]]; rewrite Hw.
      * rewrite Hc. left. reflexivity.
      * rewrite Hne. right. exists e. auto.
    + rewrite Hne. right. exists e. auto.
Qed.

(** Where an [Exception] that leaves [process_all_pdfs] comes from. *)
Lemma run_batch_raise : forall con env n n' e,
  run_batch con env n = (n', Raise e) -> exc_is_Exception e = true ->
  out_mkdir env = Raise e
  \/ (out_mkdir env = Ok tt /\ input_exists env = true /\ pdf_glob env = Raise e)
  \/ exists k msg, con_print con k msg = Raise e.
Proof.
  intros con env n n' e H He. unfold run_batch, io_bind, io_lift, io_print, io_ret in H.
  destruct (out_mkdir env) as [[]|e'] eqn:Em; cbv beta iota in H;
    [|inversion H; subst; left; reflexivity].
  destruct (input_exists env) eqn:Ei; simpl in H.
  - destruct (pdf_glob env) as [files|e'] eqn:Eg; cbv beta iota in H;
      [|inversion H; subst; right; left; auto].
    destruct files as [|f fs].
    + destruct (con_print con n MsgNoPdfs) as [[]|e'] eqn:Ep; inversion H; subst.
      right; right. eauto.
    + destruct (con_print con n (MsgFound (List.length (f :: fs)))) as [[]|e'] eqn:Ep;
        cbv beta iota in H; [|inversion H; subst; right; right; eauto].
      destruct (process_all_pdfs_cases con (f :: fs) (S n))
        as [[n1 [tr [Htr _]]]|[n1 [e1 [He1 Hwhy]]]]; rewrite ?Htr, ?He1 in H; inversion H; subst.
      destruct Hwhy as [Hne|[g [k [e0 [_ Hk]]]]]; [congruence|].
      right; right. eauto.
  - destruct (con_print con n MsgInputMissing) as [[]|e'] eqn:Ep; inversion H; subst.
    right; right. eauto.
Qed.

(** The handlers of [main]: only the [except Exception] one ends in [sys.exit(1)]. *)
Lemma main_handler_fatal : forall con e n n',
  (if String.eqb (exc_name e) "KeyboardInterrupt"
   then io_print con MsgStopped ;~ io_ret StoppedByUser
   else if exc_is_Exception e
   then io_print con (MsgError e) ;~ io_ret FatalExit
   else io_raise e) n = (n', Ok FatalExit) ->
  exc_is_Exception e = true /\ String.eqb (exc_name e) "KeyboardInterrupt" = false.
Proof.
  intros con e n n' H. unfold io_bind, io_print, io_ret, io_raise in H.
  destruct (String.eqb (exc_name e) "KeyboardInterrupt").
  - destruct (con_print con n MsgStopped) as [[]|e']; discriminate.
  - destruct (exc_is_Exception e); [auto|discriminate].
Qed.

(** [main] exits with status 1 only after an [Exception] other than
    [KeyboardInterrupt] raised by creating the output directory, by listing
    the input directory, or by a [print] (such as that of a ["✗ Failed"]
    line).  With a console that never fails, it exits with status 1 exactly
    when creating the output directory or listing the existing input
    directory raises such an exception: an error while processing a PDF
    never causes it. *)
Theorem main_fatal_exit : forall con env n,
  (forall n', main con env n = (n', Ok FatalExit) ->
     exists e, exc_is_Exception e = true /\ String.eqb (exc_name e) "KeyboardInterrupt" = false
       /\ (out_mkdir env = Raise e
           \/ (out_mkdir env = Ok tt /\ input_exists env = true /\ pdf_glob env = Raise e)
           \/ exists k msg, con_print con k msg = Raise e))
  /\ ((forall k msg, con_print con k msg = Ok tt) ->
      (snd (main con env n) = Ok FatalExit <->
       exists e, exc_is_Exception e = true /\ String.eqb (exc_name e) "KeyboardInterrupt" = false
         /\ (out_mkdir env = Raise e
             \/ (out_mkdir env = Ok tt /\ input_exists env = true /\ pdf_glob env = Raise e)))).
Proof.
  intros con env n.
  assert (Ha : forall n', main con env n = (n', Ok FatalExit) ->
     exists e, exc_is_Exception e = true /\ String.eqb (exc_name e) "KeyboardInterrupt" = false
       /\ (out_mkdir env = Raise e
           \/ (out_mkdir env = Ok tt /\ input_exists env = true /\ pdf_glob env = Raise e)
           \/ exists k msg, con_print con k msg = Raise e)).
  { intros n' H. unfold main, io_handle in H. unfold io_bind at 1 in H.
    destruct (run_batch con env n) as [n1 [b|e]] eqn:Er; cbv beta iota in H.
    - unfold io_bind, io_print at 1, io_ret at 1 in H.
      destruct (con_print con n1 MsgAllDone) as [[]|e] eqn:Ea; cbv beta iota in H;
        [discriminate|].
      destruct (main_handler_fatal con e (S n1) n' H) as [He Hk].
      exists e. repeat split; auto. right; right. eauto.
    - destruct (main_handler_fatal con e n1 n' H) as [He Hk].
      exists e. repeat split; auto. apply (run_batch_raise con env n n1 e Er He). }
  split; [exact Ha|]. intros Hcon. split.
  - intros H. destruct (main con env n) as [n' r] eqn:Em. simpl in H. subst r.
    destruct (Ha n' eq_refl) as [e [He [Hk [Hm|[Hg|[k [msg Hp]]]]]]].
    + exists e. auto.
    + exists e. auto.
    + rewrite Hcon in Hp. discriminate.
  - intros [e [He [Hk Hsrc]]].
    unfold main, io_handle, run_batch, io_bind, io_lift, io_print, io_ret, io_raise.
    destruct Hsrc as [Hm|[Hm [Hi Hg]]]; rewrite Hm; cbv beta iota.
    + rewrite Hk, He, Hcon. reflexivity.
    + rewrite Hi, Hg. simpl. rewrite Hk, He, Hcon. reflexivity.
Qed.

End DriverFacts.

(** ** Building blocks from spans *)

Section BlockFacts.
Context {U : UnicodeDB}.

Lemma group_from_concat : forall rest prev cur,
  List.concat (group_from prev cur rest) = rev cur ++ rest.
Proof.
  induction rest as [|curr rest IH]; intros prev cur; simpl.
  - rewrite app_nil_r. reflexivity.
  - destruct (Qlt_bool _ 5 && Qlt_bool _ 20).
    + rewrite IH. simpl. rewrite <- app_assoc. reflexivity.
    + simpl. rewrite IH. reflexivity.
Qed.

Lemma group_from_nonempty : forall rest prev cur,
  cur <> [] -> forall g, In g (group_from prev cur rest) -> g <> [].
Proof.
  induction rest as [|curr rest IH]; intros prev cur Hc g Hg; simpl in Hg.
  - destruct Hg as [<-|[]]. intros E. apply Hc.
    rewrite <- (rev_involutive cur), E. reflexivity.
  - destruct (Qlt_bool _ 5 && Qlt_bool _ 20).
    + apply (IH curr (curr :: cur)); [discriminate|exact Hg].
    + destruct Hg as [<-|Hg].
      * intros E. apply Hc. rewrite <- (rev_involutive cur), E. reflexivity.
      * apply (IH curr [curr]); [discriminate|exact Hg].
Qed.

Lemma span_key_lt_true : forall a b, span_key_lt a b = true -> span_order a b.
Proof.
  intros a b H. unfold span_key_lt in H. apply orb_true_iff in H as [H|H].
  - left. apply Qlt_bool_iff, H.
  - apply andb_true_iff in H as [H1 H2]. right. split.
    + apply Qeq_bool_iff, H1.
    + apply Qlt_le_weak, Qlt_bool_iff, H2.
Qed.

Lemma span_key_lt_false : forall a b, span_key_lt a b = false -> span_order b a.
Proof.
  intros a b H. unfold span_key_lt in H. apply orb_false_iff in H as [H1 H2].
  apply Qlt_bool_false in H1. apply Qle_lteq in H1 as [H1|H1]; [left; exact H1|].
  right. split; [exact H1|].
  rewrite (proj2 (Qeq_bool_iff _ _) (Qeq_sym _ _ H1)) in H2. simpl in H2.
  apply Qlt_bool_false, H2.
Qed.

(** [_group_nearby_spans] loses and duplicates no span: read group after
    group, the groups are the spans of the line in the order (top, then
    left edge) of the sort, and no group is empty. *)
Theorem group_nearby_spans_partition : forall spans,
  Permutation (List.concat (group_nearby_spans spans)) spans
  /\ Sorted span_order (List.concat (group_nearby_spans spans))
  /\ (forall g, In g (group_nearby_spans spans) -> g <> []).
Proof.
  intros spans.
  assert (Hc : List.concat (group_nearby_spans spans) = sort_by span_key_lt spans).
  { unfold group_nearby_spans. destruct (sort_by span_key_lt spans) as [|s0 rest]; [reflexivity|].
    rewrite group_from_concat. reflexivity. }
  rewrite Hc. split; [apply sort_by_perm|]. split.
  - apply sort_by_sorted; [exact span_key_lt_true|exact span_key_lt_false].
  - unfold group_nearby_spans. destruct (sort_by span_key_lt spans) as [|s0 rest]; [intros g []|].
    apply group_from_nonempty. discriminate.
Qed.

Lemma q_min_le : forall x rest y, In y (x :: rest) -> (q_min x rest <= y)%Q.
Proof.
  intros x rest. unfold q_min, py_max. revert x.
  induction rest as [|r rs IH]; intros x y Hy; simpl.
  - destruct Hy as [<-|[]]. apply Qle_refl.
  - destruct (Qlt_bool r x) eqn:E.
    + apply Qlt_bool_iff in E. destruct Hy as [<-|Hy].
      * apply Qle_trans with r; [apply IH; left; reflexivity|apply Qlt_le_weak, E].
      * apply IH. exact Hy.
    + apply Qlt_bool_false in E. destruct Hy as [<-|[<-|Hy]].
      * apply IH. left. reflexivity.
      * apply Qle_trans with x; [apply IH; left; reflexivity|exact E].
      * apply IH. right. exact Hy.
Qed.

Lemma filter_nil_iff : forall {A} (f : A -> bool) l,
  filter f l = [] <-> forall x, In x l -> f x = false.
Proof.
  intros A f l; induction l as [|x l IH]; simpl.
  - split; [intros _ y []|reflexivity].
  - destruct (f x) eqn:E; split.
    + discriminate.
    + intros H. rewrite (H x (or_introl eq_refl)) in E. discriminate.
    + intros H y [<-|Hy]; [exact E|]. apply IH; assumption.
    + intros H. apply IH. intros y Hy. apply H. right. exact Hy.
Qed.

(** [_make_text_block] gives no block exactly when every span of the group
    is blank after [strip()]; otherwise the block is on the given page, its
    bounding box encloses every span of the group (blank ones included), and
    its font size is the largest size among the non-blank spans. *)
Theorem make_text_block_spec : forall spans p pw ph,
  (make_text_block spans p pw ph = None <-> forall sp, In sp spans -> blank_span sp = true)
  /\ forall b, make_text_block spans p pw ph = Some b ->
     page b = p
     /\ (forall sp, In sp spans ->
           (x0 b <= span_x0 sp)%Q /\ (y0 b <= span_y0 sp)%Q
           /\ (span_x1 sp <= x1 b)%Q /\ (span_y1 sp <= y1 b)%Q)
     /\ (forall sp, In sp spans -> blank_span sp = false -> (span_size sp <= font_size b)%Q)
     /\ (exists sp, In sp spans /\ blank_span sp = false /\ font_size b = span_size sp).
Proof.
  intros spans p pw ph.
  unfold make_text_block. destruct spans as [|sp0 sps].
  { split; [split; [intros _ sp []|reflexivity]|discriminate]. }
  cbv zeta.
  remember (filter (fun sp => negb (Nat.eqb (List.length (strip (span_text sp))) 0)) (sp0 :: sps))
    as kept eqn:Ekept.
  assert (Hk : forall sp, In sp (sp0 :: sps) -> blank_span sp = false -> In sp kept).
  { intros sp Hsp Hb. rewrite Ekept. apply filter_In. split; [exact Hsp|].
    unfold blank_span in Hb. rewrite Hb. reflexivity. }
  assert (Hkb : forall sp, In sp kept -> In sp (sp0 :: sps) /\ blank_span sp = false).
  { intros sp Hsp. rewrite Ekept in Hsp. apply filter_In in Hsp as [H1 H2]. split; [exact H1|].
    unfold blank_span. destruct (Nat.eqb _ 0); [discriminate|reflexivity]. }
  clear Ekept.
  destruct kept as [|k0 ks]; simpl.
  - split; [split; [|reflexivity]|discriminate].
    intros _ sp Hsp. destruct (blank_span sp) eqn:Eb; [reflexivity|].
    destruct (Hk sp Hsp Eb).
  - split; [split; [discriminate|]|].
    { intros H. exfalso. specialize (Hkb k0 (or_introl eq_refl)) as [H1 H2].
      rewrite (H k0 H1) in H2. discriminate. }
    intros b Hb. inversion Hb; subst b; clear Hb. cbn [page x0 y0 x1 y1 font_size].
    split; [reflexivity|]. split; [|split].
    + intros sp Hsp. repeat split.
      * apply q_min_le. destruct Hsp as [<-|Hsp]; [left; reflexivity|right; apply in_map, Hsp].
      * apply q_min_le. destruct Hsp as [<-|Hsp]; [left; reflexivity|right; apply in_map, Hsp].
      * apply q_max_ge. destruct Hsp as [<-|Hsp]; [left; reflexivity|right; apply in_map, Hsp].
      * apply q_max_ge. destruct Hsp as [<-|Hsp]; [left; reflexivity|right; apply in_map, Hsp].
    + intros sp Hsp Hb. apply q_max_ge. specialize (Hk sp Hsp Hb).
      change (span_size k0 :: map span_size ks) with (map span_size (k0 :: ks)). apply in_map, Hk.
    + destruct (py_max_in (fun a b => Qlt_bool b a) (span_size k0) (map span_size ks)) as [E|E].
      * exists k0. destruct (Hkb k0 (or_introl eq_refl)) as [H1 H2]. unfold q_max. rewrite <- E. auto.
      * apply in_map_iff in E as [sp [E Hsp]]. exists sp.
        destruct (Hkb sp (or_intror Hsp)) as [H1 H2]. unfold q_max. rewrite <- E. auto.
Qed.

End BlockFacts.

(** ** What [_get_text_blocks] returns *)

Section ExtractionFacts.
Context {U : UnicodeDB}.

Lemma process_block_lines_useful : forall lines p pw ph b,
  In b (process_block_lines lines p pw ph) -> is_useful_text (text b) = true.
Proof.
  intros lines p pw ph b H. unfold process_block_lines in H.
  apply in_flat_map in H as [spans [_ H]]. apply in_flat_map in H as [g [_ H]].
  destruct (make_text_block g p pw ph) as [b'|]; [|destruct H].
  destruct (is_useful_text (text b')) eqn:E; [|destruct H].
  destruct H as [<-|[]]. exact E.
Qed.

Lemma page_loop_origin : forall raws i pw ph acc r,
  (page_loop raws i pw ph acc = inl r \/ page_loop raws i pw ph acc = inr r) ->
  forall b, In b r ->
  In b acc \/ exists lines, In (Some lines) raws /\ In b (process_block_lines lines i pw ph).
Proof.
  intros raws i pw ph; induction raws as [|rb raws IH]; intros acc r H b Hb; cbn [page_loop] in H.
  - destruct H as [H|H]; inversion H; subst. left. exact Hb.
  - destruct rb as [lines|].
    + destruct (Nat.ltb memory_threshold _).
      * destruct H as [H|H]; [discriminate|]. injection H as <-.
        pose proof (in_firstn_incl memory_threshold (acc ++ process_block_lines lines i pw ph) b Hb) as Hb'.
        apply in_app_or in Hb' as [Hb'|Hb']; [left; exact Hb'|].
        right. exists lines. split; [left; reflexivity|exact Hb'].
      * destruct (IH _ _ H b Hb) as [Hb'|[ls [Hl Hb']]].
        -- apply in_app_or in Hb' as [Hb'|Hb']; [left; exact Hb'|].
           right. exists lines. split; [left; reflexivity|exact Hb'].
        -- right. exists ls. split; [right; exact Hl|exact Hb'].
    + destruct (IH _ _ H b Hb) as [Hb'|[ls [Hl Hb']]]; [left; exact Hb'|].
      right. exists ls. split; [right; exact Hl|exact Hb'].
Qed.

Lemma pages_loop_origin : forall doc idxs acc bs,
  pages_loop doc idxs acc = Ok bs -> forall b, In b bs ->
  In b acc \/ exists i pd lines, In i idxs /\ get_page doc i = Ok pd
    /\ In (Some lines) (page_raw_blocks pd)
    /\ In b (process_block_lines lines i (page_rect_width pd) (page_rect_height pd)).
Proof.
  intros doc idxs; induction idxs as [|i idxs IH]; intros acc bs H b Hb; simpl in H.
  - inversion H; subst. left. exact Hb.
  - destruct (get_page doc i) as [pd|e] eqn:Ep.
    + destruct (page_loop _ _ _ _ _) as [acc'|r] eqn:El.
      * destruct (IH _ _ H b Hb) as [Hb'|[j [pd' [ls [Hj [Ep' [Hl Hb'']]]]]]].
        -- destruct (page_loop_origin _ _ _ _ _ _ (or_introl El) b Hb') as [Ha|[ls [Hl Hb'']]];
             [left; exact Ha|].
           right. exists i, pd, ls. repeat split; auto. left. reflexivity.
        -- right. exists j, pd', ls. repeat split; auto. right. exact Hj.
      * injection H as <-.
        destruct (page_loop_origin _ _ _ _ _ _ (or_intror El) b Hb) as [Ha|[ls [Hl Hb'']]];
          [left; exact Ha|].
        right. exists i, pd, ls. repeat split; auto. left. reflexivity.
    + destruct (exc_is_Exception e); [|discriminate].
      destruct (IH _ _ H b Hb) as [Hb'|[j [pd' [ls [Hj [Ep' [Hl Hb'']]]]]]]; [left; exact Hb'|].
      right. exists j, pd', ls. repeat split; auto. right. exact Hj.
Qed.

(** Every block that [_get_text_blocks] returns was built by
    [_process_block_lines] from a block with ["lines"] of a page below
    [page_count] that PyMuPDF returned, and passed [_is_useful_text]: its
    stripped text has at least 2 characters, the text at most 300, and at
    least 2 of its characters are alphanumeric or outside ASCII. *)
Theorem get_text_blocks_useful : forall doc n bs,
  get_text_blocks doc n = Ok bs -> forall b, In b bs ->
  (exists i pd lines, (i < n)%nat /\ get_page doc i = Ok pd
     /\ In (Some lines) (page_raw_blocks pd)
     /\ In b (process_block_lines lines i (page_rect_width pd) (page_rect_height pd)))
  /\ (2 <= List.length (strip (text b)))%nat
  /\ (List.length (text b) <= 300)%nat
  /\ (2 <= List.length (filter (fun c => ud_isalnum c || (127 <? c)%Z) (text b)))%nat.
Proof.
  intros doc n bs H b Hb.
  destruct (pages_loop_origin _ _ _ _ H b Hb) as [[]|[i [pd [lines [Hi [Ep [Hl Hb']]]]]]].
  assert (Hu := process_block_lines_useful _ _ _ _ _ Hb').
  split; [exists i, pd, lines; apply in_seq in Hi; repeat split; auto; lia|].
  unfold is_useful_text in Hu.
  destruct (Nat.eqb (List.length (text b)) 0 || Nat.ltb (List.length (strip (text b))) 2) eqn:E1;
    [discriminate|].
  apply orb_false_iff in E1 as [_ E1]. apply Nat.ltb_ge in E1.
  destruct (Nat.ltb 300 (List.length (text b))) eqn:E2; [discriminate|].
  apply Nat.ltb_ge in E2. apply negb_true_iff, Nat.ltb_ge in Hu. auto.
Qed.

Lemma strongly_sorted_app : forall {A} (R : A -> A -> Prop) l1 l2,
  StronglySorted R l1 -> StronglySorted R l2 ->
  (forall x y, In x l1 -> In y l2 -> R x y) -> StronglySorted R (l1 ++ l2).
Proof.
  intros A R l1; induction l1 as [|x l1 IH]; intros l2 H1 H2 H12; simpl; [exact H2|].
  inversion H1 as [|? ? Hl1 Hx]; subst. constructor.
  - apply IH; auto. intros a b Ha Hb. apply H12; [right|]; assumption.
  - apply Forall_app. split; [exact Hx|]. apply Forall_forall. intros y Hy.
    apply H12; [left; reflexivity|exact Hy].
Qed.

Lemma strongly_sorted_app_l : forall {A} (R : A -> A -> Prop) l1 l2,
  StronglySorted R (l1 ++ l2) -> StronglySorted R l1.
Proof.
  intros A R l1; induction l1 as [|x l1 IH]; intros l2 H; simpl in H; [constructor|].
  inversion H as [|? ? Hl Hx]; subst. constructor; [apply (IH l2 Hl)|].
  apply Forall_app in Hx as [Hx _]. exact Hx.
Qed.

Lemma page_loop_sorted : forall raws i pw ph acc r,
  StronglySorted le (map page acc) -> (forall b, In b acc -> (page b <= i)%nat) ->
  (page_loop raws i pw ph acc = inl r \/ page_loop raws i pw ph acc = inr r) ->
  StronglySorted le (map page r) /\ (forall b, In b r -> (page b <= i)%nat).
Proof.
  intros raws i pw ph; induction raws as [|rb raws IH]; intros acc r Hs Hle H; cbn [page_loop] in H.
  - destruct H as [H|H]; inversion H; subst. auto.
  - assert (Hnew : forall lines, StronglySorted le (map page (acc ++ process_block_lines lines i pw ph))
                     /\ forall b, In b (acc ++ process_block_lines lines i pw ph) -> (page b <= i)%nat).
    { intros lines. split.
      - rewrite map_app. apply strongly_sorted_app; [exact Hs| |].
        + assert (Hc : forall p, In p (map page (process_block_lines lines i pw ph)) -> p = i).
          { intros p Hp. apply in_map_iff in Hp as [b [<- Hb]]. eapply process_block_lines_page; eauto. }
          induction (map page (process_block_lines lines i pw ph)) as [|p ps IHp]; constructor.
          * apply IHp. intros q Hq. apply Hc. right. exact Hq.
          * apply Forall_forall. intros q Hq. rewrite (Hc p (or_introl eq_refl)), (Hc q (or_intror Hq)). lia.
        + intros p q Hp Hq. apply in_map_iff in Hp as [b [<- Hb]]. apply in_map_iff in Hq as [b' [<- Hb']].
          rewrite (process_block_lines_page _ _ _ _ _ Hb'). apply Hle, Hb.
      - intros b Hb. apply in_app_or in Hb as [Hb|Hb]; [apply Hle, Hb|].
        rewrite (process_block_lines_page _ _ _ _ _ Hb). lia. }
    destruct rb as [lines|]; [|exact (IH acc r Hs Hle H)].
    destruct (Hnew lines) as [Hs' Hle'].
    destruct (Nat.ltb memory_threshold _).
    + destruct H as [H|H]; [discriminate|]. injection H as <-.
      rewrite <- (firstn_skipn memory_threshold (acc ++ process_block_lines lines i pw ph)) in Hs', Hle'.
      split.
      * rewrite map_app in Hs'. apply strongly_sorted_app_l in Hs'. exact Hs'.
      * intros b Hb. apply Hle', in_or_app. left. exact Hb.
    + exact (IH _ r Hs' Hle' H).
Qed.

Lemma pages_loop_sorted : forall doc n s acc bs,
  StronglySorted le (map page acc) -> (forall b, In b acc -> (page b <= s)%nat) ->
  pages_loop doc (seq s n) acc = Ok bs -> StronglySorted le (map page bs).
Proof.
  intros doc n; induction n as [|n IH]; intros s acc bs Hs Hle H; simpl in H.
  - inversion H; subst. exact Hs.
  - destruct (get_page doc s) as [pd|e].
    + destruct (page_loop _ _ _ _ _) as [acc'|r] eqn:El.
      * destruct (page_loop_sorted _ _ _ _ _ _ Hs Hle (or_introl El)) as [Hs' Hle'].
        apply (IH (S s) acc'); [exact Hs'| |exact H]. intros b Hb. specialize (Hle' b Hb). lia.
      * inversion H; subst. exact (proj1 (page_loop_sorted _ _ _ _ _ _ Hs Hle (or_intror El))).
    + destruct (exc_is_Exception e); [|discriminate].
      apply (IH (S s) acc); [exact Hs| |exact H]. intros b Hb. specialize (Hle b Hb). lia.
Qed.

(** [_get_text_blocks] returns the blocks in page order: their page numbers
    never decrease along the list, whichever pages fail or hit the cap. *)
Theorem get_text_blocks_page_order : forall doc n bs,
  get_text_blocks doc n = Ok bs -> Sorted le (map page bs).
Proof.
  intros doc n bs H. apply StronglySorted_Sorted.
  apply (pages_loop_sorted doc n 0 [] bs); [constructor|intros b []|exact H].
Qed.

End ExtractionFacts.

(** ** Order of the font statistics *)

Section FontOrder.

Lemma nth_sorted_mono : forall l i j, StronglySorted Qle l ->
  (i <= j)%nat -> (j < List.length l)%nat -> (nth i l 0 <= nth j l 0)%Q.
Proof.
  induction l as [|x l IH]; intros i j Hs Hij Hj; simpl in Hj; [lia|].
  inversion Hs as [|? ? Hl Hx]; subst.
  destruct i as [|i], j as [|j]; simpl; [apply Qle_refl| |lia|apply IH; auto; lia].
  rewrite Forall_forall in Hx. apply Hx, nth_In. lia.
Qed.

Lemma last_nth_q : forall (l : list Q) d, l <> [] -> last l d = nth (List.length l - 1) l d.
Proof.
  induction l as [|x [|y l] IH]; intros d H; [congruence|reflexivity|].
  change (last (x :: y :: l) d) with (last (y :: l) d). rewrite IH by discriminate.
  simpl. rewrite Nat.sub_0_r. reflexivity.
Qed.

Lemma inject_Z_succ : forall k, (inject_Z (Z.of_nat (S k)) == inject_Z (Z.of_nat k) + 1)%Q.
Proof. intros k. rewrite Nat2Z.inj_succ, <- Z.add_1_r, inject_Z_plus. reflexivity. Qed.

Lemma sum_lower : forall l a, (forall y, In y l -> (a <= y)%Q) ->
  (a * inject_Z (Z.of_nat (List.length l)) <= fold_right Qplus 0 l)%Q.
Proof.
  induction l as [|x l IH]; intros a H; simpl fold_right.
  - simpl. rewrite Qmult_0_r. apply Qle_refl.
  - change (List.length (x :: l)) with (S (List.length l)). rewrite inject_Z_succ.
    setoid_replace (a * (inject_Z (Z.of_nat (List.length l)) + 1))%Q
      with (a + a * inject_Z (Z.of_nat (List.length l)))%Q by ring.
    apply Qplus_le_compat; [apply H; left; reflexivity|].
    apply IH. intros y Hy. apply H. right. exact Hy.
Qed.

Lemma sum_upper : forall l a, (forall y, In y l -> (y <= a)%Q) ->
  (fold_right Qplus 0 l <= a * inject_Z (Z.of_nat (List.length l)))%Q.
Proof.
  induction l as [|x l IH]; intros a H; simpl fold_right.
  - simpl. rewrite Qmult_0_r. apply Qle_refl.
  - change (List.length (x :: l)) with (S (List.length l)). rewrite inject_Z_succ.
    setoid_replace (a * (inject_Z (Z.of_nat (List.length l)) + 1))%Q
      with (a + a * inject_Z (Z.of_nat (List.length l)))%Q by ring.
    apply Qplus_le_compat; [apply H; left; reflexivity|].
    apply IH. intros y Hy. apply H. right. exact Hy.
Qed.

Ltac div_facts a c :=
  pose proof (Nat.div_mod a c ltac:(lia)); pose proof (Nat.mod_upper_bound a c ltac:(lia)).

(** [font_info]'s statistics are ordered: smallest <= median <= p75 <= p90
    <= p95 <= largest, and the average lies between the smallest and the
    largest size, for every non-empty list of block font sizes. *)
Theorem font_stats_order : forall sz0 szs,
  let fi := font_stats sz0 szs in
  (fi_smallest fi <= fi_median fi)%Q /\ (fi_median fi <= fi_p75 fi)%Q
  /\ (fi_p75 fi <= fi_p90 fi)%Q /\ (fi_p90 fi <= fi_p95 fi)%Q /\ (fi_p95 fi <= fi_largest fi)%Q
  /\ (fi_smallest fi <= fi_average fi)%Q /\ (fi_average fi <= fi_largest fi)%Q.
Proof.
  intros sz0 szs fi.
  assert (Hl := sort_sizes_length sz0 szs).
  assert (Hp := sort_by_perm Qlt_bool (sz0 :: szs)).
  assert (Hss : StronglySorted Qle (sort_by Qlt_bool (sz0 :: szs))).
  { apply Sorted_StronglySorted; [intros a b c; apply Qle_trans|apply sort_sizes_sorted]. }
  unfold fi, font_stats. cbn [fi_p75 fi_p90 fi_p95 fi_average fi_median fi_smallest fi_largest].
  rewrite Hl.
  set (s := sort_by Qlt_bool (sz0 :: szs)) in *. set (n := S (List.length szs)) in *.
  assert (Hne : s <> []) by (intros E; rewrite E in Hl; discriminate).
  assert (Hlast : last_q s = nth_q s (n - 1)) by (unfold last_q, nth_q; rewrite last_nth_q, Hl; auto).
  rewrite !Hlast.
  assert (Hmono : forall i j, (i <= j)%nat -> (j < n)%nat -> (nth_q s i <= nth_q s j)%Q).
  { intros i j Hij Hj. apply nth_sorted_mono; [exact Hss|exact Hij|lia]. }
  assert (Hin : forall i, (i < n)%nat -> In (nth_q s i) (sz0 :: szs)).
  { intros i Hi. apply (Permutation_in _ Hp), nth_In. lia. }
  div_facts n 2%nat. div_facts (3 * n)%nat 4%nat. div_facts (9 * n)%nat 10%nat. div_facts (19 * n)%nat 20%nat.
  destruct (Nat.ltb_spec 4 n), (Nat.ltb_spec 10 n), (Nat.ltb_spec 20 n);
    try (exfalso; lia).
  all: split; [apply q_min_le, Hin; lia|].
  all: split; [apply Hmono; lia|].
  all: split; [apply Hmono; lia|].
  all: split; [apply Hmono; lia|].
  all: split; [apply q_max_ge, Hin; lia|].
  all: rewrite fold_left_Qplus, Qplus_0_l.
  all: assert (Hn : (0 < inject_Z (Z.of_nat n))%Q) by (unfold Qlt; simpl; lia).
  all: split; [apply Qle_shift_div_l; [exact Hn|]|apply Qle_shift_div_r; [exact Hn|]].
  all: change n with (List.length (sz0 :: szs)).
  all: first [apply sum_lower; intros y Hy; apply q_min_le, Hy
             |apply sum_upper; intros y Hy; apply q_max_ge, Hy].
Qed.

End FontOrder.

(** ** Validity of the emitted headings *)

Section HeadingFacts.
Context {U : UnicodeDB}.

Lemma outline_headings_valid : forall blocks structure title language h,
  In h (outline_headings blocks structure title language) ->
  In (fst h) blocks /\ snd h = assign_level (fst h) language
  /\ is_valid_heading (fst h) language = true
  /\ PrimFloat.ltb 0.4 (score_heading_candidate (fst h) structure language) = true.
Proof.
  intros blocks structure title language h H. unfold outline_headings in H.
  apply in_sort_by in H. unfold assign_levels in H. apply in_map_iff in H as [b [Eh Hb]].
  subst h. simpl. apply in_map_iff in Hb as [[b' sc] [Eb Hbs]]. simpl in Eb. subst b'.
  apply filter_In in Hbs as [Hbs Hv]. simpl in Hv.
  apply remove_title_matches_incl, filter_In in Hbs as [Hbs Hsc]. simpl in Hsc.
  apply in_map_iff in Hbs as [b' [Eb Hb']]. injection Eb as -> ->.
  repeat split; assumption.
Qed.

(** Every entry of the outline [_build_outline] returns comes from an input
    block that scored above 0.4 and passed [_is_valid_heading]: its text is
    the block's stripped, NFC-normalised text, its page and level are the
    block's, the text is not rejected by [_definitely_not_heading], and its
    stripped length is 2..80 characters for a CJK block, 5..250 characters
    of at most 25 words otherwise. *)
Theorem build_outline_entries_valid : forall blocks structure title language e,
  In e (build_outline blocks structure title language) ->
  exists b, In b blocks
    /\ out_text e = ud_nfc (strip (text b)) /\ out_page e = page b
    /\ out_level e = assign_level b language
    /\ PrimFloat.ltb 0.4 (score_heading_candidate b structure language) = true
    /\ definitely_not_heading (strip (text b)) language = false
    /\ match script_type b with
       | SCjk => (2 <= List.length (strip (text b)) <= 80)%nat
       | _ => (5 <= List.length (strip (text b)) <= 250)%nat
              /\ (List.length (split (strip (text b))) <= 25)%nat
       end.
Proof.
  intros blocks structure title language e H. unfold build_outline in H.
  apply in_map_iff in H as [h [<- Hh]].
  destruct (outline_headings_valid _ _ _ _ _ Hh) as (Hin & Hl & Hv & Hs).
  exists (fst h). unfold format_heading. cbn [out_text out_page out_level].
  unfold is_valid_heading in Hv. apply andb_prop in Hv as [Hlen Hd].
  apply negb_true_iff in Hd.
  repeat split; try assumption.
  destruct (script_type (fst h)).
  all: repeat rewrite andb_true_iff in Hlen; repeat rewrite Nat.leb_le in Hlen.
  all: first [lia | tauto].
Qed.

Lemma remove_title_matches_length : forall {A} (cands : list (Block * A)) title,
  (List.length (remove_title_matches cands title) <= List.length cands)%nat.
Proof.
  intros A cands title. unfold remove_title_matches.
  destruct title; [lia|]. apply filter_length_le.
Qed.

Lemma outline_headings_length : forall blocks structure title language,
  (List.length (outline_headings blocks structure title language) <= List.length blocks)%nat.
Proof.
  intros blocks structure title language. unfold outline_headings, assign_levels.
  rewrite (Permutation_length (sort_by_perm _ _)), !length_map.
  etransitivity; [apply filter_length_le|].
  etransitivity; [apply remove_title_matches_length|].
  etransitivity; [apply filter_length_le|]. rewrite length_map. lia.
Qed.

(** [_build_outline] emits at most one entry per input block; so the outline
    that [extract_structure] returns never has more than [memory_threshold]
    (1000) entries, however large the document. *)
Theorem outline_length_bounded :
  (forall blocks structure title language,
     (List.length (build_outline blocks structure title language) <= List.length blocks)%nat)
  /\ (forall opened r, extract_structure opened = Ok r ->
        (List.length (res_outline r) <= memory_threshold)%nat).
Proof.
  split.
  - intros blocks structure title language. unfold build_outline.
    rewrite length_map. apply outline_headings_length.
  - intros opened r H.
    apply extract_structure_ok in H as [H|[doc [bs [_ [Hb Ho]]]]].
    + subst r. simpl. unfold memory_threshold. lia.
    + rewrite Ho. unfold build_outline. rewrite length_map.
      apply get_text_blocks_bounds in Hb as [_ Hb].
      etransitivity; [apply outline_headings_length|exact Hb].
Qed.

End HeadingFacts.

(** ** Where the title comes from *)

Section TitleSource.
Context {U : UnicodeDB}.

(** [_find_title] returns either the empty title or the cleaned text of a
    block of the first page (page 0). That block scored above 0.3 as a title
    candidate, or else no first-page block did and the block is one that
    [_is_obviously_not_title] does not reject; with no block on page 0 the
    title is empty. *)
Theorem find_title_source : forall blocks structure language,
  (find_title blocks structure language = []
   \/ exists b, In b blocks /\ page b = 0%nat
        /\ find_title blocks structure language = clean_title (text b) language
        /\ (PrimFloat.ltb 0.3 (score_title_candidate b structure language) = true
            \/ (obviously_not_title (text b) language = false
                /\ forall b', In b' blocks -> page b' = 0%nat ->
                     PrimFloat.ltb 0.3 (score_title_candidate b' structure language) = false)))
  /\ ((forall b, In b blocks -> page b <> 0%nat) -> find_title blocks structure language = []).
Proof.
  intros blocks structure language.
  assert (Hfp : forall b, In b (filter (fun b => Nat.eqb (page b) 0) blocks) <-> In b blocks /\ page b = 0%nat).
  { intros b. rewrite filter_In, Nat.eqb_eq. reflexivity. }
  split.
  - unfold find_title.
    destruct (filter (fun bs => PrimFloat.ltb 0.3 (snd bs)) _) as [|c0 cs] eqn:Ec.
    + destruct (filter (fun b => negb (obviously_not_title (text b) language)) _) as [|v0 vs] eqn:Ev;
        [left; reflexivity|right].
      set (best := py_max _ v0 vs).
      assert (Hb : In best (filter (fun b => negb (obviously_not_title (text b) language))
                              (filter (fun b => Nat.eqb (page b) 0) blocks))).
      { rewrite Ev. apply py_max_in. }
      apply filter_In in Hb as [Hb Hn]. apply Hfp in Hb as [Hb Hp].
      exists best. split; [exact Hb|]. split; [exact Hp|]. split; [reflexivity|].
      right. split; [apply negb_true_iff, Hn|].
      intros b' Hb' Hp'. rewrite filter_nil_iff in Ec.
      apply (Ec (b', score_title_candidate b' structure language)).
      apply (in_map (fun b => (b, score_title_candidate b structure language))), Hfp. auto.
    + right. set (best := py_max _ c0 cs).
      assert (Hb : In best (filter (fun bs => PrimFloat.ltb 0.3 (snd bs))
                              (map (fun b => (b, score_title_candidate b structure language))
                                 (filter (fun b => Nat.eqb (page b) 0) blocks)))).
      { rewrite Ec. apply py_max_in. }
      apply filter_In in Hb as [Hb Hs]. apply in_map_iff in Hb as [b [Eb Hb]].
      apply Hfp in Hb as [Hb Hp].
      exists b. subst best. rewrite <- Eb. simpl. simpl in Hs.
      split; [exact Hb|]. split; [exact Hp|]. split; [reflexivity|]. left.
      rewrite <- Eb in Hs. exact Hs.
  - intros Hno. unfold find_title.
    replace (filter (fun b => Nat.eqb (page b) 0) blocks) with (@nil Block).
    + reflexivity.
    + symmetry. apply filter_nil_iff. intros b Hb. apply Nat.eqb_neq, Hno, Hb.
Qed.

End TitleSource.

(** ** Headings that repeat the title *)

Section TitleMatches.
Context {U : UnicodeDB}.

Lemma list_Z_eqb_eq : forall a b, list_Z_eqb a b = true <-> a = b.
Proof.
  induction a as [|x a IH]; intros [|y b]; simpl; split; intros H; try congruence; try reflexivity.
  - apply andb_prop in H as [Hx Hb]. apply Z.eqb_eq in Hx. apply IH in Hb. congruence.
  - injection H as <- <-. rewrite Z.eqb_refl. apply IH. reflexivity.
Qed.

Lemma existsb_list_Z_eqb : forall w ws, existsb (list_Z_eqb w) ws = true <-> In w ws.
Proof.
  intros w ws. rewrite existsb_exists. split.
  - intros [x [Hx E]]. apply list_Z_eqb_eq in E. subst. exact Hx.
  - intros H. exists w. split; [exact H|]. apply list_Z_eqb_eq. reflexivity.
Qed.

Lemma filter_all_true : forall {A} (f : A -> bool) l, (forall x, In x l -> f x = true) -> filter f l = l.
Proof.
  intros A f l; induction l as [|x l IH]; intros H; simpl; [reflexivity|].
  rewrite (H x (or_introl eq_refl)), IH; [reflexivity|]. intros y Hy. apply H. right. exact Hy.
Qed.

(** [_remove_title_matches] with a non-empty title: a candidate whose word
    set [B] contains every word of the title's word set [A] (non-empty), and
    is at most 2.5 times as large, has overlap at least 0.4 and is dropped;
    a candidate that shares no word with the title is kept. *)
Theorem remove_title_matches_overlap : forall {A} (cands : list (Block * A)) title b a,
  title <> [] -> word_set title <> [] ->
  ((forall w, In w (word_set title) -> In w (word_set (text b))) ->
   (2 * List.length (word_set (text b)) <= 5 * List.length (word_set title))%nat ->
   ~ In (b, a) (remove_title_matches cands title))
  /\ (In (b, a) cands -> (forall w, In w (word_set title) -> ~ In w (word_set (text b))) ->
      In (b, a) (remove_title_matches cands title)).
Proof.
  intros A cands title b a Ht Hw. split.
  - intros Hsub Hlen Hin.
    pose proof (remove_title_matches_sim cands title (b, a) Ht Hin) as Hs. simpl in Hs.
    unfold similarity in Hs.
    rewrite filter_all_true in Hs by (intros w Hw'; apply existsb_list_Z_eqb, Hsub, Hw').
    apply (Qlt_not_le _ _ Hs).
    assert (Hk : (1 <= List.length (word_set title))%nat)
      by (destruct (word_set title); [congruence|simpl; lia]).
    revert Hk Hlen. generalize (List.length (word_set (text b))), (List.length (word_set title)).
    intros m k Hk Hlen.
    apply Qle_shift_div_l.
    + unfold Qlt. simpl. lia.
    + unfold Qle, Qmult, inject_Z; cbn [Qnum Qden]. lia.
  - intros Hc Hno. unfold remove_title_matches.
    destruct title as [|c cs]; [congruence|]. apply filter_In. split; [exact Hc|].
    simpl fst. destruct (word_set (c :: cs)) as [|tw0 tws] eqn:Etw; [congruence|].
    destruct (word_set (text b)) as [|bw0 bws] eqn:Ebw; [reflexivity|].
    apply Qlt_bool_iff. unfold similarity.
    replace (filter _ (tw0 :: tws)) with (@nil (list Z)).
    + unfold Qdiv. simpl List.length. rewrite Qmult_0_l. reflexivity.
    + symmetry. apply filter_nil_iff. intros w Hw'. apply not_true_iff_false.
      rewrite existsb_list_Z_eqb. apply Hno, Hw'.
Qed.

End TitleMatches.

(** ** Layout analysis *)

Section LayoutFacts.
Context {U : UnicodeDB}.

Lemma pages_in_order_spec : forall blocks seen, NoDup seen ->
  NoDup (pages_in_order blocks seen)
  /\ forall p, In p (pages_in_order blocks seen) <-> In p seen \/ exists b, In b blocks /\ page b = p.
Proof.
  induction blocks as [|b bs IH]; intros seen Hs; simpl.
  - split; [apply NoDup_rev, Hs|]. intros p. rewrite <- in_rev.
    split; [left; assumption|intros [H|[? [[] _]]]; exact H].
  - destruct (existsb (Nat.eqb (page b)) seen) eqn:E.
    + destruct (IH seen Hs) as [Hn Hi]. split; [exact Hn|]. intros p. rewrite Hi.
      apply existsb_exists in E as [q [Hq Eq]]. apply Nat.eqb_eq in Eq. subst q.
      split; [intros [H|[b' [Hb' <-]]]; [left; exact H|right; exists b'; auto]|].
      intros [H|[b' [[<-|Hb'] <-]]]; [left; exact H|left; exact Hq|right; exists b'; auto].
    + assert (Hs' : NoDup (page b :: seen)).
      { constructor; [|exact Hs]. intros H. apply not_true_iff_false in E. apply E.
        apply existsb_exists. exists (page b). split; [exact H|apply Nat.eqb_refl]. }
      destruct (IH _ Hs') as [Hn Hi]. split; [exact Hn|]. intros p. rewrite Hi. simpl.
      split.
      * intros [[<-|H]|[b' [Hb' <-]]]; [right; exists b; auto|left; exact H|right; exists b'; auto].
      * intros [H|[b' [[<-|Hb'] <-]]]; [left; right; exact H|left; left; reflexivity|right; exists b'; auto].
Qed.

Lemma flat_map_ext_in' : forall {A B} (f g : A -> list B) l,
  (forall a, In a l -> f a = g a) -> flat_map f l = flat_map g l.
Proof.
  intros A B f g l; induction l as [|a l IH]; intros H; simpl; [reflexivity|].
  rewrite (H a (or_introl eq_refl)), IH; [reflexivity|]. intros x Hx. apply H. right. exact Hx.
Qed.

Lemma group_by_page_perm : forall l ps, NoDup ps -> (forall b, In b l -> In (page b) ps) ->
  Permutation (flat_map (fun p => filter (fun b => Nat.eqb (page b) p) l) ps) l.
Proof.
  induction l as [|b l IH]; intros ps Hn Hc.
  - simpl. clear Hn Hc. induction ps; simpl; auto.
  - destruct (in_split _ _ (Hc b (or_introl eq_refl))) as [ps1 [ps2 Eps]].
    assert (Hout : ~ In (page b) ps1 /\ ~ In (page b) ps2).
    { subst ps. apply NoDup_remove_2 in Hn. rewrite in_app_iff in Hn. tauto. }
    assert (IH' := IH ps Hn (fun b' Hb' => Hc b' (or_intror Hb'))).
    set (F := fun p => filter (fun b0 => Nat.eqb (page b0) p) l) in *.
    assert (Hx : forall qs, ~ In (page b) qs ->
              flat_map (fun p => filter (fun b0 => Nat.eqb (page b0) p) (b :: l)) qs = flat_map F qs).
    { intros qs Hq. apply flat_map_ext_in'. intros p Hp. simpl.
      replace (Nat.eqb (page b) p) with false; [reflexivity|].
      symmetry. apply Nat.eqb_neq. intros <-. exact (Hq Hp). }
    rewrite Eps, flat_map_app. cbn [flat_map]. rewrite (Hx ps1 (proj1 Hout)), (Hx ps2 (proj2 Hout)).
    cbn [filter]. rewrite Nat.eqb_refl, <- app_comm_cons.
    rewrite <- Permutation_middle. constructor.
    rewrite Eps, flat_map_app in IH'. cbn [flat_map] in IH'. exact IH'.
Qed.

Lemma filter_comm : forall {A} (f g : A -> bool) l, filter f (filter g l) = filter g (filter f l).
Proof.
  intros A f g l; induction l as [|x l IH]; simpl; [reflexivity|].
  destruct (g x) eqn:Eg, (f x) eqn:Ef; simpl; rewrite ?Eg, ?Ef, IH; reflexivity.
Qed.

(** [_analyze_layout] groups the blocks by page and loses or repeats none of
    them: its [top_of_page] list holds each input block with [y0 < 150]
    exactly once (in page order rather than input order). *)
Theorem analyze_layout_top_of_page : forall blocks,
  Permutation (top_of_page (analyze_layout blocks))
              (filter (fun b => Qlt_bool (y0 b) 150) blocks).
Proof.
  intros blocks. unfold analyze_layout. cbn [top_of_page].
  rewrite flat_map_concat_map, map_map, <- flat_map_concat_map.
  destruct (pages_in_order_spec blocks [] (NoDup_nil _)) as [Hn Hi].
  rewrite (flat_map_ext_in' _ (fun p => filter (fun b => Nat.eqb (page b) p)
                                         (filter (fun b => Qlt_bool (y0 b) 150) blocks))).
  - apply group_by_page_perm; [exact Hn|]. intros b Hb. apply filter_In in Hb as [Hb _].
    apply Hi. right. exists b. auto.
  - intros p _. unfold layout_of_page. cbn [top_of_page]. apply filter_comm.
Qed.

End LayoutFacts.

(** ** Whitespace of the cleaned title *)

Section TitleSpacing.
Context {U : UnicodeDB}.

Definition head_nonws (s : list Z) : Prop := forall c r, s = c :: r -> ud_isspace c = false.

Lemma no_ws_run_sound : forall s, no_ws_run s = true ->
  forall pre c d post, s = pre ++ c :: d :: post -> ud_isspace c = false \/ ud_isspace d = false.
Proof.
  intros s Hs pre. revert s Hs. induction pre as [|x pre IH]; intros s Hs c d post E; subst s.
  - simpl in Hs. apply andb_prop in Hs as [H _]. apply negb_true_iff, andb_false_iff in H. exact H.
  - simpl in Hs. destruct (pre ++ c :: d :: post) as [|y r] eqn:E; [destruct pre; discriminate|].
    apply andb_prop in Hs as [_ Hs]. rewrite <- E in Hs. exact (IH _ Hs c d post eq_refl).
Qed.

Lemma no_ws_run_app : forall s r, no_ws_run s = true -> no_ws_run r = true -> head_nonws r ->
  no_ws_run (s ++ r) = true.
Proof.
  induction s as [|c s IH]; intros r Hs Hr Hh; simpl; [exact Hr|].
  destruct s as [|d s'].
  - simpl. destruct r as [|d r']; [reflexivity|]. rewrite (Hh d r' eq_refl), andb_false_r. exact Hr.
  - simpl in Hs. apply andb_prop in Hs as [Hcd Hs]. simpl. rewrite Hcd. simpl.
    exact (IH r Hs Hr Hh).
Qed.

Lemma no_ws_run_nonws_app : forall l r, (forall c, In c l -> ud_isspace c = false) ->
  no_ws_run r = true -> no_ws_run (l ++ r) = true.
Proof.
  induction l as [|c l IH]; intros r Hl Hr; simpl; [exact Hr|].
  rewrite (Hl c (or_introl eq_refl)).
  assert (H := IH r (fun x Hx => Hl x (or_intror Hx)) Hr).
  destruct (l ++ r); [reflexivity|]. exact H.
Qed.

Lemma no_ws_run_collapse : forall s b,
  no_ws_run (collapse_aux s b) = true /\ (b = true -> head_nonws (collapse_aux s b)).
Proof.
  induction s as [|c s IH]; intros b; simpl.
  - split; [reflexivity|intros _ x r E; discriminate].
  - destruct (ud_isspace c) eqn:Ec.
    + destruct b.
      * exact (IH true).
      * destruct (IH true) as [Hr Hh]. split; [|intros E; discriminate].
        specialize (Hh eq_refl). revert Hr Hh. simpl.
        destruct (collapse_aux s true) as [|d r]; [reflexivity|].
        intros Hr Hh. rewrite (Hh d r eq_refl), andb_false_r. exact Hr.
    + destruct (IH false) as [Hr _]. split.
      * apply (no_ws_run_nonws_app [c]); [intros x [<-|[]]; exact Ec|exact Hr].
      * intros _ x r E. injection E as <- _. exact Ec.
Qed.

Lemma no_ws_run_firstn : forall n s, no_ws_run s = true -> no_ws_run (firstn n s) = true.
Proof.
  induction n as [|n IH]; intros s Hs; [reflexivity|].
  destruct s as [|c s]; [reflexivity|]. simpl firstn.
  destruct s as [|d s]; [destruct n; reflexivity|].
  simpl in Hs. apply andb_prop in Hs as [Hcd Hs].
  destruct n as [|n]; [reflexivity|].
  change (no_ws_run (c :: firstn (S n) (d :: s))) with
    (negb (ud_isspace c && ud_isspace d) && no_ws_run (firstn (S n) (d :: s))).
  rewrite Hcd. apply IH, Hs.
Qed.

Lemma split_aux_words : forall s cur, (forall c, In c cur -> ud_isspace c = false) ->
  forall w, In w (split_aux s cur) -> w <> [] /\ forall c, In c w -> ud_isspace c = false.
Proof.
  induction s as [|x s IH]; intros cur Hc w Hw; simpl in Hw.
  - destruct cur as [|y cur]; [destruct Hw|].
    destruct Hw as [<-|[]]. split; [intros E; apply (f_equal (@rev Z)) in E; rewrite rev_involutive in E; discriminate|].
    intros c Hin. apply Hc, in_rev, Hin.
  - destruct (ud_isspace x) eqn:Ex.
    + destruct cur as [|y cur]; [exact (IH [] (fun c H => match H with end) w Hw)|].
      destruct Hw as [<-|Hw].
      * split; [intros E; apply (f_equal (@rev Z)) in E; rewrite rev_involutive in E; discriminate|]. intros c Hin. apply Hc, in_rev, Hin.
      * exact (IH [] (fun c H => match H with end) w Hw).
    + apply (IH (x :: cur)); [|exact Hw]. intros c [<-|Hin]; [exact Ex|apply Hc, Hin].
Qed.

Lemma no_ws_run_join : forall ws, (forall w, In w ws -> w <> [] /\ forall c, In c w -> ud_isspace c = false) ->
  no_ws_run (join [32] ws) = true /\ head_nonws (join [32] ws).
Proof.
  induction ws as [|w ws IH]; intros Hw.
  - split; [reflexivity|intros c r E; discriminate].
  - destruct (Hw w (or_introl eq_refl)) as [Hne Hc].
    assert (Hhead : forall r, head_nonws (w ++ r)).
    { intros r c r' E. destruct w as [|x w]; [congruence|]. injection E as <- _. apply Hc. left. reflexivity. }
    destruct ws as [|w' ws'].
    + simpl. split; [|rewrite <- (app_nil_r w); apply Hhead].
      rewrite <- (app_nil_r w). apply no_ws_run_nonws_app; [exact Hc|reflexivity].
    + destruct (IH (fun x Hx => Hw x (or_intror Hx))) as [Hr Hh].
      change (join [32] (w :: w' :: ws')) with (w ++ [32] ++ join [32] (w' :: ws')).
      remember (join [32] (w' :: ws')) as J eqn:EJ. clear EJ.
      split; [|apply Hhead].
      apply no_ws_run_nonws_app; [exact Hc|].
      destruct J as [|d r]; [reflexivity|].
      change (negb (ud_isspace 32 && ud_isspace d) && no_ws_run (d :: r) = true).
      rewrite (Hh d r eq_refl), andb_false_r. exact Hr.
Qed.

(** The title [_clean_title] returns never holds two whitespace characters
    side by side: [re.sub(r'\s+', ' ', ...)] leaves single spaces, and the
    truncations keep a prefix, or rejoin whole words with single spaces,
    before appending ["..."] (given that ['.'] is not whitespace). *)
Theorem clean_title_no_ws_run : forall title language,
  ud_isspace (uc ".") = false ->
  forall pre c d post, clean_title title language = pre ++ c :: d :: post ->
  ud_isspace c = false \/ ud_isspace d = false.
Proof.
  intros title language Hdot. apply no_ws_run_sound.
  assert (Hdots : no_ws_run (u8 "...") = true /\ head_nonws (u8 "...")).
  { change (u8 "...") with [uc "."; uc "."; uc "."]. simpl. rewrite Hdot. split; [reflexivity|].
    intros c r E. injection E as <- _. exact Hdot. }
  destruct Hdots as [Hd Hdh].
  assert (Hc := proj1 (no_ws_run_collapse (ud_nfc (strip title)) false)).
  unfold clean_title, collapse_ws.
  destruct (get_script_type _).
  all: try (destruct (Nat.ltb 100 _); [apply no_ws_run_app; [apply no_ws_run_firstn, Hc|exact Hd|exact Hdh]|exact Hc]).
  all: destruct (Nat.ltb 200 _); [|exact Hc].
  all: destruct (Nat.ltb 30 _); [|exact Hc].
  all: apply no_ws_run_app; [|exact Hd|exact Hdh].
  all: apply no_ws_run_join; intros w Hw.
  all: eapply (split_aux_words _ []); [intros x []|apply (in_firstn_incl 30); exact Hw].
Qed.

End TitleSpacing.

(** ** Runs of the sample inputs for the properties above *)

Section ExtraRuns.
Local Existing Instance PyDB.py_db.

Lemma main_fatal_exit_witness :
  snd (main quiet_console denied_env 0%nat) = Ok FatalExit
  /\ exists e, exc_is_Exception e = true /\ String.eqb (exc_name e) "KeyboardInterrupt" = false
       /\ (out_mkdir two_file_env = Raise e
           \/ (out_mkdir two_file_env = Ok tt /\ input_exists two_file_env = true
                /\ pdf_glob two_file_env = Raise e)
           \/ exists k msg, con_print ascii_console k msg = Raise e).
Proof.
  split.
  - apply (proj2 (main_fatal_exit quiet_console denied_env 0%nat) (fun _ _ => eq_refl)).
    exists {| exc_name := "PermissionError"; exc_is_Exception := true |}.
    split; [reflexivity|]. split; [vm_compute; reflexivity|]. left. reflexivity.
  - apply (proj1 (main_fatal_exit ascii_console two_file_env 0%nat) 5%nat).
    vm_compute. reflexivity.
Defined.

Lemma process_file_failed_only_on_print_witness :
  snd (process_file flaky_console report_file 0%nat) = Ok false
  /\ (exists e, exc_is_Exception e = true
       /\ (con_print flaky_console 0%nat (MsgProcessing (pdf_name report_file)) = Raise e
           \/ con_print flaky_console 1%nat (MsgCompleted (pdf_name report_file)) = Raise e))
  /\ process_file quiet_console report_file 0%nat = (2%nat, Ok true).
Proof.
  assert (H : snd (process_file flaky_console report_file 0%nat) = Ok false)
    by (vm_compute; reflexivity).
  split; [exact H|]. split.
  - exact (proj1 (process_file_failed_only_on_print flaky_console report_file 0%nat) H).
  - destruct (proj2 (process_file_failed_only_on_print quiet_console report_file 0%nat)
                eq_refl eq_refl) as [Hok|[e [He _]]]; [exact Hok|].
    vm_compute in He. discriminate.
Defined.

Lemma make_text_block_spec_witness :
  exists b, make_text_block titled_spans 0 600 800 = Some b /\ page b = 0%nat
    /\ (font_size b == 20)%Q.
Proof.
  assert (H : make_text_block titled_spans 0 600 800
              = Some (match make_text_block titled_spans 0 600 800 with
                      | Some b => b | None => empty_block end)) by (vm_compute; reflexivity).
  exists (match make_text_block titled_spans 0 600 800 with Some b => b | None => empty_block end).
  split; [exact H|]. split; [exact (proj1 (proj2 (make_text_block_spec titled_spans 0 600 800) _ H))|].
  vm_compute. reflexivity.
Defined.

Lemma get_text_blocks_useful_witness :
  get_text_blocks report_doc 1 = Ok report_blocks /\ In title_block report_blocks
  /\ (2 <= List.length (strip (text title_block)))%nat.
Proof.
  assert (H : get_text_blocks report_doc 1 = Ok report_blocks) by (vm_compute; reflexivity).
  assert (Hin : In title_block report_blocks) by (vm_compute; left; reflexivity).
  split; [exact H|]. split; [exact Hin|].
  exact (proj1 (proj2 (get_text_blocks_useful report_doc 1 report_blocks H title_block Hin))).
Defined.

Lemma get_text_blocks_page_order_witness :
  get_text_blocks patchy_doc 5 = Ok patchy_blocks
  /\ map page (firstn 4 patchy_blocks) = [0; 0; 2; 3]%nat
  /\ page (last patchy_blocks empty_block) = 3%nat
  /\ List.length patchy_blocks = 1000%nat
  /\ Sorted le (map page patchy_blocks).
Proof.
  assert (H : get_text_blocks patchy_doc 5 = Ok patchy_blocks) by (vm_compute; reflexivity).
  split; [exact H|].
  split; [vm_compute; reflexivity|].
  split; [vm_compute; reflexivity|].
  split; [vm_compute; reflexivity|].
  exact (get_text_blocks_page_order patchy_doc 5 patchy_blocks H).
Defined.

Lemma build_outline_entries_valid_witness :
  In contact_entry (build_outline report_blocks (analyze_structure report_blocks "english")
                      (u8 "Annual Report 2024") "english")
  /\ exists b, In b report_blocks /\ out_page contact_entry = page b.
Proof.
  assert (Hin : In contact_entry (build_outline report_blocks (analyze_structure report_blocks "english")
                                    (u8 "Annual Report 2024") "english"))
    by (vm_compute; left; reflexivity).
  split; [exact Hin|].
  destruct (build_outline_entries_valid _ _ _ _ _ Hin) as [b [Hb [_ [Hp _]]]].
  exists b. split; [exact Hb|exact Hp].
Defined.

Lemma outline_length_bounded_witness :
  extract_structure (Ok report_doc) = Ok report_result
  /\ (List.length (res_outline report_result) <= memory_threshold)%nat.
Proof.
  assert (H : extract_structure (Ok report_doc) = Ok report_result) by (vm_compute; reflexivity).
  split; [exact H|]. exact (proj2 outline_length_bounded _ _ H).
Defined.

Lemma find_title_source_witness :
  find_title report_blocks (analyze_structure report_blocks "english") "english" = u8 "Annual Report 2024"
  /\ exists b, In b report_blocks /\ page b = 0%nat
       /\ find_title report_blocks (analyze_structure report_blocks "english") "english"
          = clean_title (text b) "english".
Proof.
  assert (Ht : find_title report_blocks (analyze_structure report_blocks "english") "english"
               = u8 "Annual Report 2024") by (vm_compute; reflexivity).
  split; [exact Ht|].
  destruct (proj1 (find_title_source report_blocks (analyze_structure report_blocks "english") "english"))
    as [E|[b [Hb [Hp [Hc _]]]]].
  - rewrite Ht in E. discriminate.
  - exists b. split; [exact Hb|]. split; [exact Hp|exact Hc].
Defined.

Lemma remove_title_matches_overlap_witness :
  In (title_block, tt) report_candidates
  /\ ~ In (title_block, tt) (remove_title_matches report_candidates (u8 "Annual Report 2024")).
Proof.
  split; [vm_compute; left; reflexivity|].
  apply (proj1 (remove_title_matches_overlap report_candidates (u8 "Annual Report 2024") title_block tt
                  ltac:(vm_compute; discriminate) ltac:(vm_compute; discriminate))).
  - intros w Hw. vm_compute in Hw |- *. exact Hw.
  - apply Nat.leb_le. vm_compute. reflexivity.
Defined.

Lemma clean_title_no_ws_run_witness :
  clean_title (u8 "a  b") "english" = [97] ++ 32 :: 98 :: []
  /\ (ud_isspace 32 = false \/ ud_isspace 98 = false).
Proof.
  assert (H : clean_title (u8 "a  b") "english" = [97] ++ 32 :: 98 :: []) by (vm_compute; reflexivity).
  split; [exact H|].
  exact (@clean_title_no_ws_run PyDB.py_db (u8 "a  b") "english" ltac:(vm_compute; reflexivity) [97] 32 98 [] H).
Defined.

End ExtraRuns.

